(** * nisl: validation and conversion utilities, masks

    A shallow embedding of [nisl/utils.py] (connected components, the niimg
    checker, the concatenator and the list normalizer) and of the masking
    operations exercised by [nisl/tests/test_masking.py], with the properties
    the specification states about them. *)

From Stdlib Require Import String Ascii DecimalString.
From Stdlib Require Import List Arith Bool Lia ZArith QArith.
Import ListNotations.
Open Scope string_scope.
Open Scope list_scope.
Open Scope nat_scope.

Set Implicit Arguments.
Set Warnings "-register-all".

(** ** Exceptions and results *)

(** The Python exceptions the modelled code can raise. *)
Inductive exn : Type :=
| TypeError (msg : string)
| ValueError (msg : string)
| AttributeError (msg : string)
| IndexError (msg : string)
| IOError (msg : string)
| StopIteration.

(** A call either returns a value or raises. *)
Inductive result (A : Type) : Type :=
| Ok (a : A)
| Raise (e : exn).

Arguments Ok {A} a.
Arguments Raise {A} e.

Definition bind {A B : Type} (r : result A) (k : A -> result B) : result B :=
  match r with
  | Ok a => k a
  | Raise e => Raise e
  end.

Notation "x <- c ;; k" := (bind c (fun x => k))
  (at level 61, c at next level, right associativity).

(** ** Arrays *)

(** A numpy array: its shape and its elements in row-major (C) order. *)
Record ndarray (A : Type) : Type := mk_ndarray {
  shape : list nat;
  elems : list A
}.

Definition prod_list (l : list nat) : nat := fold_right Nat.mul 1 l.

(** An array holds as many elements as its shape announces. *)
Definition wf_ndarray {A : Type} (a : ndarray A) : Prop :=
  length (elems a) = prod_list (shape a).

Definition ndim {A : Type} (a : ndarray A) : nat := length (shape a).

(** [a[..., np.newaxis]]: one more trailing axis, of length 1. *)
Definition newaxis {A : Type} (a : ndarray A) : ndarray A :=
  mk_ndarray (shape a ++ [1]) (elems a).

(** Length of the trailing axis, and the product of the axes before it. *)
Definition last_dim (s : list nat) : nat := last s 0.
Definition lead_shape (s : list nat) : list nat := removelast s.

(** Row [r] of [l], seen as a matrix with rows of length [k]. *)
Definition row {A : Type} (k : nat) (l : list A) (r : nat) : list A :=
  firstn k (skipn (r * k) l).

(** [np.concatenate(arrays, axis=-1)].  numpy refuses an empty list,
    zero-dimensional arrays, and arrays whose shapes differ anywhere but on
    the concatenation axis. *)
Definition same_lead (s : list nat) (a : list nat) : bool :=
  if list_eq_dec Nat.eq_dec (lead_shape a) s then true else false.

Definition concatenate_last {A : Type} (arrays : list (ndarray A))
  : result (ndarray A) :=
  match arrays with
  | [] => Raise (ValueError "need at least one array to concatenate")
  | a0 :: _ =>
      if existsb (fun a => ndim a =? 0) arrays then
        Raise (ValueError "zero-dimensional arrays cannot be concatenated")
      else if forallb (fun a => same_lead (lead_shape (shape a0)) (shape a))
                      arrays then
        let lead := lead_shape (shape a0) in
        Ok (mk_ndarray
              (lead ++ [list_sum (map (fun a => last_dim (shape a)) arrays)])
              (flat_map
                 (fun r => flat_map
                             (fun a => row (last_dim (shape a)) (elems a) r)
                             arrays)
                 (seq 0 (prod_list lead))))
      else
        Raise (ValueError "all the input array dimensions except for the concatenation axis must match exactly")
  end.

(** [a[..., i]]: the slice of index [i] along the trailing axis. *)
Definition take_last {A : Type} (a : ndarray A) (i : nat)
  : option (ndarray A) :=
  match shape a with
  | [] => None
  | _ :: _ =>
      let k := last_dim (shape a) in
      if i <? k then
        Some (mk_ndarray
                (lead_shape (shape a))
                (flat_map (fun r => firstn 1 (skipn (r * k + i) (elems a)))
                          (seq 0 (prod_list (lead_shape (shape a))))))
      else None
  end.

(** [str(n)] for a non-negative integer. *)
Definition str_of_nat (n : nat) : string :=
  NilZero.string_of_uint (Nat.to_uint n).

(** The line feed of the messages. *)
Definition newline : string := String (ascii_of_nat 10) "".

(** The text [sub] occurs in the text [s]. *)
Definition occurs_in (sub s : string) : Prop :=
  exists pre post, s = (pre ++ sub ++ post)%string.

(** ['list of ' * depth]. *)
Fixpoint str_repeat (s : string) (n : nat) : string :=
  match n with
  | 0 => ""
  | S n' => (s ++ str_repeat s n')%string
  end.

(** ** Niimg related operations *)

Section Niimg.

(** The numeric type of array elements, with numpy's element-wise [==]
    (not reflexive on floating point: a NaN differs from itself) and the
    text [repr] gives of an array. *)
Variable elt : Type.
Variable elt_eqb : elt -> elt -> bool.
Variable repr : ndarray elt -> string.

(** What [getattr] finds under a name: nothing, a value that cannot be
    called, or a method with the value its call returns. *)
Inductive attr (A : Type) : Type :=
| Missing
| NotCallable
| Method (ret : A).

Arguments Missing {A}.
Arguments NotCallable {A}.
Arguments Method {A} ret.

(** An object as the duck-typed code probes it. *)
Record pyobject : Type := mk_pyobject {
  get_data : attr (ndarray elt);
  get_affine : attr (ndarray elt);
  shape_attr : option (list nat)
}.

(** The inputs of the checkers: a path, an object, or an iterable of
    inputs (a list: iterating it again starts from its first element). *)
Inductive value : Type :=
| VStr (s : string)
| VObj (o : pyobject)
| VSeq (l : list value).

(** [nibabel.Nifti1Image(data, affine)]. *)
Definition Nifti1Image (data affine : ndarray elt) : pyobject :=
  mk_pyobject (Method data) (Method affine) (Some (shape data)).

(** The file reader behind [nibabel.load]: the data and the affine stored
    under a path, or the failure of the read. *)
Variable read_file : string -> result (ndarray elt * ndarray elt).

Definition nibabel_load (path : string) : result pyobject :=
  f <- read_file path ;;
  Ok (Nifti1Image (fst f) (snd f)).

(** [np.array_equal]: same shape and all elements equal under [==]. *)
Fixpoint all_eqb (l1 l2 : list elt) : bool :=
  match l1, l2 with
  | [], [] => true
  | x :: l1', y :: l2' => elt_eqb x y && all_eqb l1' l2'
  | _, _ => false
  end.

Definition array_equal (a b : ndarray elt) : bool :=
  (if list_eq_dec Nat.eq_dec (shape a) (shape b) then true else false)
  && all_eqb (elems a) (elems b).

Definition callable {A : Type} (a : attr A) : bool :=
  match a with
  | Method _ => true
  | _ => false
  end.

(** [is_a_niimg]: [getattr] raises [AttributeError] on a missing name,
    which the function turns into [False]. *)
Definition is_a_niimg (object : value) : bool :=
  match object with
  | VObj o =>
      match get_data o, get_affine o with
      | Missing, _ => false
      | _, Missing => false
      | d, a => callable d && callable a
      end
  | _ => false
  end.

(** Calling a method of an object. *)
Definition call {A : Type} (name : string) (a : attr A) : result A :=
  match a with
  | Method v => Ok v
  | NotCallable =>
      Raise (TypeError ("'" ++ name ++ "' is not callable")%string)
  | Missing => Raise (AttributeError name)
  end.

Definition _get_shape (niimg : pyobject) : result (list nat) :=
  match shape_attr niimg with
  | Some s => Ok s
  | None => d <- call "get_data" (get_data niimg) ;; Ok (shape d)
  end.

Definition check_niimg (niimg : value) : result pyobject :=
  match niimg with
  | VStr path => nibabel_load path
  | VObj o =>
      if negb (is_a_niimg niimg) then
        Raise (TypeError
                 "Given data does not expose get_data or get_affine methods")
      else Ok o
  | VSeq _ =>
      (* a list has neither method: [is_a_niimg] is [False] *)
      Raise (TypeError
               "Given data does not expose get_data or get_affine methods")
  end.


Definition no_accessor_msg : string :=
  "Given data does not expose get_data or get_affine methods".

(** A loadable input: the checker resolves it to an image, of which
    [img] gives the data and the affine. *)
Definition loads (x : value) (img : ndarray elt * ndarray elt) : Prop :=
  exists o, check_niimg x = Ok o
            /\ get_data o = Method (fst img)
            /\ get_affine o = Method (snd img).

(** What the loop of [concat_niimgs] appends for an image. *)
Definition promoted (img : ndarray elt * ndarray elt) : ndarray elt :=
  if ndim (fst img) =? 3 then newaxis (fst img) else fst img.

(** The message of the affine mismatch. *)
Definition affine_error (iter_niimg : value) (index : nat)
    (affine wrong : ndarray elt) : string :=
  let s_error := "" in
  let i_error :=
    match iter_niimg with
    | VStr path => ("image " ++ path)%string
    | _ => ("image #" ++ str_of_nat index)%string
    end in
  ("Affine of " ++ i_error ++ s_error ++ " is different"
   ++ " from reference affine"
   ++ newline ++ "Reference affine:" ++ newline
   ++ repr affine ++ newline
   ++ "Wrong affine:" ++ newline
   ++ repr wrong)%string.

(** The body of the [for index, iter_niimg in enumerate(niimgs)] loop:
    the arrays appended to [data], in order, or the first exception. *)
Fixpoint concat_loop (affine : ndarray elt) (index : nat)
    (niimgs : list value) : result (list (ndarray elt)) :=
  match niimgs with
  | [] => Ok []
  | iter_niimg :: rest =>
      niimg <- check_niimg iter_niimg ;;
      this_affine <- call "get_affine" (get_affine niimg) ;;
      if negb (array_equal this_affine affine) then
        Raise (ValueError (affine_error iter_niimg index affine this_affine))
      else
        this_data <- call "get_data" (get_data niimg) ;;
        let this_data :=
          if ndim this_data =? 3 then newaxis this_data else this_data in
        data <- concat_loop affine (S index) rest ;;
        Ok (this_data :: data)
  end.

(** [iter(niimgs).next()]. *)
Definition first_item (niimgs : list value) : result value :=
  match niimgs with
  | [] => Raise StopIteration
  | x :: _ => Ok x
  end.

Definition concat_niimgs (niimgs : list value) : result pyobject :=
  first <- first_item niimgs ;;
  first_niimg <- check_niimg first ;;
  affine <- call "get_affine" (get_affine first_niimg) ;;
  data <- concat_loop affine 0 niimgs ;;
  data <- concatenate_last data ;;
  Ok (Nifti1Image data affine).

(** The [while] loop of [check_niimgs]: follow first elements down to the
    first input that is not a non-string iterable, counting the levels. *)
Fixpoint descend (first_img : value) (depth : nat) : result (value * nat) :=
  match first_img with
  | VSeq l =>
      match l with
      | [] => Raise StopIteration
      | x :: _ => descend x (S depth)
      end
  | _ => Ok (first_img, depth)
  end.

Definition is_string (v : value) : bool :=
  match v with VStr _ => true | _ => false end.

Definition is_iterable (v : value) : bool :=
  match v with VSeq _ | VStr _ => true | VObj _ => false end.

Definition depth_dim_error (depth dim : nat) : string :=
  ("Data must be either a 4D Nifti image or a"
   ++ " list of 3D Nifti images. You provided a "
   ++ str_repeat "list of " depth ++ str_of_nat dim ++ "D"
   ++ " image(s).")%string.

(** What iterating over an input yields. *)
Definition items (niimgs : value) : result (list value) :=
  match niimgs with
  | VSeq l => Ok l
  | VStr s => Ok (map (fun c => VStr (String c "")) (list_ascii_of_string s))
  | VObj _ => Raise (TypeError "object is not iterable")
  end.

Definition check_niimgs (niimgs : value) (accept_3d : bool)
  : result pyobject :=
  if accept_3d && (is_string niimgs || negb (is_iterable niimgs)) then
    niimg <- check_niimg niimgs ;;
    s <- _get_shape niimg ;;
    if length s =? 3 then
      d <- call "get_data" (get_data niimg) ;;
      a <- call "get_affine" (get_affine niimg) ;;
      Ok (Nifti1Image (newaxis d) a)
    else Ok niimg
  else
    fd <- descend niimgs 0 ;;
    let depth := snd fd in
    first_img <- check_niimg (fst fd) ;;
    s <- _get_shape first_img ;;
    let dim := length s in
    if negb (dim + depth =? 4) then
      Raise (TypeError (depth_dim_error depth dim))
    else if dim =? 4 then check_niimg niimgs
    else l <- items niimgs ;; concat_niimgs l.

End Niimg.

Arguments Missing {A}.
Arguments NotCallable {A}.
Arguments Method {A} ret.
Arguments VStr {elt} s.
Arguments VObj {elt} o.
Arguments VSeq {elt} l.

(** ** Operating on connected components *)

Definition map_nd {A B : Type} (f : A -> B) (a : ndarray A) : ndarray B :=
  mk_ndarray (shape a) (map f (elems a)).

(** The number of foreground entries of a mask. *)
Definition count_true (l : list bool) : nat := count_occ bool_dec l true.

(** The flattened positions of the foreground of a mask, in row-major
    order, counted from [start]. *)
Fixpoint positions (start : nat) (mask : list bool) : list nat :=
  match mask with
  | [] => []
  | b :: mask' =>
      if b then start :: positions (S start) mask'
      else positions (S start) mask'
  end.

(** [np.bincount]: how often each value from 0 to the maximum occurs; the
    count of an empty array is empty. *)
Definition bincount (l : list nat) : list nat :=
  match l with
  | [] => []
  | _ :: _ => map (count_occ Nat.eq_dec l) (seq 0 (S (list_max l)))
  end.

(** [label_count[0] = 0]. *)
Definition discard_zero (label_count : list nat) : result (list nat) :=
  match label_count with
  | [] => Raise (IndexError "index 0 is out of bounds for axis 0 with size 0")
  | _ :: t => Ok (0 :: t)
  end.

(** [argmax]: the index of the first occurrence of the maximum. *)
Fixpoint argmax_from (best_i best_v i : nat) (l : list nat) : nat :=
  match l with
  | [] => best_i
  | x :: t =>
      if best_v <? x then argmax_from i x (S i) t
      else argmax_from best_i best_v (S i) t
  end.

Definition argmax (l : list nat) : result nat :=
  match l with
  | [] => Raise (ValueError "attempt to get argmax of an empty sequence")
  | x :: t => Ok (argmax_from 0 x 1 t)
  end.

(** The coordinates of a flattened position in an array of shape [s]. *)
Fixpoint unravel (s : list nat) (p : nat) : list nat :=
  match s with
  | [] => []
  | _ :: s' => p / prod_list s' :: unravel s' (p mod prod_list s')
  end.

Definition distance (a b : list nat) : nat :=
  list_sum (map (fun xy => (fst xy - snd xy) + (snd xy - fst xy))
                (combine a b)).

(** The default neighbourhood of [scipy.ndimage.label]: two positions of
    the array that differ by one step along one axis (6 neighbours in
    3D). *)
Definition face_adjacent (s : list nat) (p q : nat) : Prop :=
  p < prod_list s /\ q < prod_list s
  /\ distance (unravel s p) (unravel s q) = 1.

Definition no_component_msg : string :=
  "No non-zero values: no connected components".

Section Components.

(** [scipy.ndimage.label]: from the foreground of a volume (its non-zero
    entries) to an array of labels and the number of labels used. *)
Variable label : ndarray bool -> ndarray nat * nat.

Definition largest_connected_component {A : Type} (nonzero : A -> bool)
    (volume : ndarray A) : result (ndarray bool) :=
  let foreground := map_nd nonzero volume in
  let (labels, label_nb) := label foreground in
  if label_nb =? 0 then
    Raise (ValueError "No non-zero values: no connected components")
  else if label_nb =? 1 then
    Ok foreground
  else
    label_count <- discard_zero (bincount (elems labels)) ;;
    biggest <- argmax label_count ;;
    Ok (map_nd (fun v => v =? biggest) labels).

(** *** What [label] promises *)

(** The neighbourhood of the labelling (its structuring element), on
    positions of the flattened volume. *)
Variable adj : nat -> nat -> Prop.

Definition fg_at (fg : list bool) (p : nat) : Prop := nth p fg false = true.

(** Two foreground positions are connected when a chain of neighbouring
    foreground positions leads from one to the other. *)
Inductive connected (fg : list bool) : nat -> nat -> Prop :=
| connected_refl : forall p, fg_at fg p -> connected fg p p
| connected_step : forall p q r,
    fg_at fg p -> adj p q -> connected fg q r -> connected fg p r.

(** The labels are 0 on the background and number the connected
    components from 1 to [nb]. *)
Record label_spec (fg : ndarray bool) (labels : ndarray nat) (nb : nat)
  : Prop := mk_label_spec {
  ls_shape : shape labels = shape fg;
  ls_length : length (elems labels) = length (elems fg);
  ls_background : forall p, p < length (elems fg) ->
      (nth p (elems labels) 0 = 0 <-> nth p (elems fg) false = false);
  ls_bound : forall p, nth p (elems labels) 0 <= nb;
  ls_used : forall k, 1 <= k <= nb ->
      exists p, p < length (elems fg) /\ nth p (elems labels) 0 = k;
  ls_component : forall p q,
      p < length (elems fg) -> q < length (elems fg) ->
      fg_at (elems fg) p -> fg_at (elems fg) q ->
      (nth p (elems labels) 0 = nth q (elems labels) 0
       <-> connected (elems fg) p q)
}.

(** A mask [m] that is one connected component of the foreground [fg],
    and a largest one: it lies in the foreground, it is the set of the
    positions connected to one of its positions, and no set of distinct
    positions connected to one another has more elements. *)
Definition largest_component (fg m : list bool) : Prop :=
  (forall p, nth p m false = true -> fg_at fg p)
  /\ (exists p0, nth p0 m false = true
                 /\ forall q, nth q m false = true <-> connected fg p0 q)
  /\ (forall q c, fg_at fg q -> NoDup c ->
                  (forall r, In r c -> connected fg q r) ->
                  length c <= count_true m).

End Components.

(** ** Masking *)

Section Masking.

Variable elt : Type.
Variable zero : elt.

Definition shape_eqb (s1 s2 : list nat) : bool :=
  if list_eq_dec Nat.eq_dec s1 s2 then true else false.

(** Modelled from the spec: [apply_mask] of [nisl/masking.py], which is not
    among the sources.  An image whose trailing axis counts [n_obs]
    observations, seen through a mask of its spatial shape, gives the series
    of shape (observations, selected voxels), the voxels in row-major
    order.  The optional smoothing is left out; what happens when the
    shapes disagree is not specified and is modelled as a failure. *)
Definition apply_mask (data : ndarray elt) (mask : ndarray bool)
  : result (ndarray elt) :=
  let n_obs := last_dim (shape data) in
  match shape data with
  | [] => Raise (ValueError "the image has no observation axis")
  | _ :: _ =>
      if shape_eqb (lead_shape (shape data)) (shape mask) then
        let selected := positions 0 (elems mask) in
        Ok (mk_ndarray
              [n_obs; length selected]
              (flat_map
                 (fun t => map (fun v => nth (v * n_obs + t) (elems data) zero)
                               selected)
                 (seq 0 n_obs)))
      else Raise (ValueError "the mask does not have the shape of the image")
  end.

(** Modelled from the spec: [unmask] of [nisl/masking.py], which is not
    among the sources.  The rows of a series go back to the foreground
    positions of the mask, in the order [apply_mask] enumerates them; every
    other position is zero.  A series without observation axis gives an
    array of the shape of the mask.  The trailing dimension of the series
    must be the number of foreground voxels. *)
Definition unmask (series : ndarray elt) (mask : ndarray bool)
  : result (ndarray elt) :=
  let n_voxels := count_true (elems mask) in
  let rank v := count_true (firstn v (elems mask)) in
  match shape series with
  | [n] =>
      if n =? n_voxels then
        Ok (mk_ndarray
              (shape mask)
              (map (fun v => if nth v (elems mask) false
                             then nth (rank v) (elems series) zero
                             else zero)
                   (seq 0 (length (elems mask)))))
      else Raise (ValueError "the series does not have one value per voxel of the mask")
  | [n_obs; n] =>
      if n =? n_voxels then
        Ok (mk_ndarray
              (shape mask ++ [n_obs])
              (flat_map
                 (fun v => if nth v (elems mask) false
                           then map (fun t => nth (t * n + rank v)
                                                  (elems series) zero)
                                    (seq 0 n_obs)
                           else repeat zero n_obs)
                 (seq 0 (length (elems mask)))))
      else Raise (ValueError "the series does not have one value per voxel of the mask")
  | _ => Raise (ValueError "the series must have one or two dimensions")
  end.

(** The list form of [unmask]: each series on its own, in order. *)
Fixpoint unmask_list (series : list (ndarray elt)) (mask : ndarray bool)
  : result (list (ndarray elt)) :=
  match series with
  | [] => Ok []
  | x :: rest =>
      u <- unmask x mask ;;
      us <- unmask_list rest mask ;;
      Ok (u :: us)
  end.

(** The image the round trip is compared with: [data] with every voxel
    outside the mask set to zero ([unmasked4D[-mask, :] = 0] in the
    test). *)
Definition zero_outside (data : ndarray elt) (mask : ndarray bool)
  : ndarray elt :=
  let n_obs := last_dim (shape data) in
  mk_ndarray
    (shape data)
    (map (fun i => if nth (i / n_obs) (elems mask) false
                   then nth i (elems data) zero else zero)
         (seq 0 (length (elems data)))).

End Masking.

Section Intersect.

Variable label : ndarray bool -> ndarray nat * nat.

(** How many of the masks mark each voxel. *)
Definition add_mask (counts : list nat) (mask : ndarray bool) : list nat :=
  map (fun cb => fst cb + (if snd cb : bool then 1 else 0))
      (combine counts (elems mask)).

Definition votes (input_masks : list (ndarray bool)) (size : nat) : list nat :=
  fold_left add_mask input_masks (repeat 0 size).

(** The number of masks that mark the voxel [v]. *)
Definition vote_count (input_masks : list (ndarray bool)) (v : nat) : nat :=
  length (filter (fun m => nth v (elems m) false) input_masks).

(** The voxel-wise combination of two masks. *)
Definition voxelwise (f : bool -> bool -> bool) (a b : ndarray bool)
  : ndarray bool :=
  mk_ndarray (shape a)
    (map (fun xy => f (fst xy) (snd xy)) (combine (elems a) (elems b))).

(** The fraction [count / total] of masks, for [total > 0]. *)
Definition fraction (count total : nat) : Q :=
  Z.of_nat count # Pos.of_nat total.

(** The vote of one voxel: the fraction of masks marking it strictly
    exceeds the threshold; at threshold 1, which no fraction exceeds, all
    the masks must mark it. *)
Definition exceeds (threshold : Q) (count total : nat) : bool :=
  if Qeq_bool threshold 1 then count =? total
  else negb (Qle_bool (fraction count total) threshold).

(** Modelled from the spec: [intersect_masks] of [nisl/masking.py], which
    is not among the sources.  The masks vote voxel by voxel; on request
    the result is restricted to its largest connected component.  An empty
    sequence and masks of different shapes are refused. *)
Definition intersect_masks (input_masks : list (ndarray bool))
    (threshold : Q) (connected : bool) : result (ndarray bool) :=
  match input_masks with
  | [] => Raise (ValueError "no mask to intersect")
  | first :: _ =>
      if forallb (fun m => shape_eqb (shape m) (shape first)) input_masks then
        let total := length input_masks in
        let grp_mask :=
          mk_ndarray (shape first)
            (map (fun c => exceeds threshold c total)
                 (votes input_masks (length (elems first)))) in
        if connected then
          largest_connected_component label (fun b : bool => b) grp_mask
        else Ok grp_mask
      else Raise (ValueError "the masks do not have the same shape")
  end.

End Intersect.

(** ** Further notions on inputs *)

Section Inputs.

Variable elt : Type.

(** A nesting whose chain of first elements ends in an empty list. *)
Fixpoint hollow (v : value elt) : bool :=
  match v with
  | VSeq l =>
      match l with
      | [] => true
      | x :: _ => hollow x
      end
  | _ => false
  end.

(** An object whose [shape] attribute, when it has one, is the shape of
    its data (as for every [Nifti1Image]). *)
Definition consistent (o : pyobject elt) : Prop :=
  forall d, get_data o = Method d -> _get_shape o = Ok (shape d).

(** The number of volumes an image brings to a concatenation, and its
    spatial shape: a 3D image is one volume. *)
Definition volumes (data : ndarray elt) : nat :=
  if ndim data =? 3 then 1 else last_dim (shape data).

Definition spatial (data : ndarray elt) : list nat :=
  if ndim data =? 3 then shape data else lead_shape (shape data).

End Inputs.

(** ** Caching *)

(** [str(n)] and ["%d" % n] for an integer. *)
Definition str_of_int (z : Z) : string := NilZero.string_of_int (Z.to_int z).

Section Caching.

(** The functions to cache, with their [func_name]. *)
Variable func : Type.
Variable func_name : func -> string.

(** What the [memory] attribute can hold: a path, a [joblib.Memory] with
    its [cachedir] ([None] when it stores nothing), or an object that is
    neither and has no [cachedir] attribute. *)
Inductive memory_value : Type :=
| MemPath (path : string)
| MemObject (cachedir : option string)
| MemOther.

(** The two attributes of an object with the mixin; each may be absent. *)
Record CacheMixin : Type := mk_CacheMixin {
  memory_level : option Z;
  memory : option memory_value
}.

(** [Memory(cachedir=store).cache(func)]. *)
Record memorized : Type := mk_memorized {
  cached_func : func;
  store : option string
}.

(** A call leaves the object in a new state, has issued warnings, and has
    returned or raised. *)
Record outcome : Type := mk_outcome {
  after : CacheMixin;
  warnings : list string;
  returned : result memorized
}.

Definition level_warning : string :=
  "memory_level is currently set to 0 but a Memory object has been provided. Setting memory_level to 1.".

Definition no_store_warning (level : Z) (f : func) : string :=
  ("Caching has been enabled (memory_level = " ++ str_of_int level
   ++ ") but no Memory object or path has been provided (parameter memory)."
   ++ " Caching deactivated for function " ++ func_name f ++ ".")%string.

Definition memory_type_error : exn :=
  TypeError "'memory' argument must be a string or a joblib.Memory object.".

(** [isinstance(self.memory, basestring) or self.memory.cachedir is not
    None]: the attribute access fails on an object without [cachedir]. *)
Definition has_store (m : memory_value) : result bool :=
  match m with
  | MemPath _ => Ok true
  | MemObject (Some _) => Ok true
  | MemObject None => Ok false
  | MemOther => Raise (AttributeError "cachedir")
  end.

Definition _cache (self : CacheMixin) (f : func) (level : Z) : outcome :=
  (* creates attributes if they don't exist *)
  let self_level := match memory_level self with Some l => l | None => 0%Z end in
  let self_memory :=
    match memory self with Some m => m | None => MemObject None end in
  let provided :=
    if (self_level =? 0)%Z then has_store self_memory else Ok false in
  match provided with
  | Raise e =>
      mk_outcome (mk_CacheMixin (Some self_level) (Some self_memory)) []
                 (Raise e)
  | Ok bump =>
      let self_level := if bump then 1%Z else self_level in
      let warned := if bump then [level_warning] else [] in
      let self' := mk_CacheMixin (Some self_level) (Some self_memory) in
      if (self_level <? level)%Z then
        mk_outcome self' warned (Ok (mk_memorized f None))
      else
        match self_memory with
        | MemPath path =>
            mk_outcome self' warned (Ok (mk_memorized f (Some path)))
        | MemObject (Some dir) =>
            mk_outcome self' warned (Ok (mk_memorized f (Some dir)))
        | MemObject None =>
            mk_outcome self' (warned ++ [no_store_warning self_level f])
                       (Ok (mk_memorized f None))
        | MemOther => mk_outcome self' warned (Raise memory_type_error)
        end
  end.

(** Where the [memory] attribute stores, if anywhere. *)
Definition location (self : CacheMixin) : option string :=
  match memory self with
  | Some (MemPath path) => Some path
  | Some (MemObject dir) => dir
  | _ => None
  end.

(** The level after the adjustment of a level 0 with a store. *)
Definition effective_level (self : CacheMixin) : Z :=
  match memory_level self with
  | Some l => if (l =? 0)%Z then 1%Z else l
  | None => 1%Z
  end.

End Caching.

(** ** Sample inputs *)

Module Sample.

Definition str_of_Z (z : Z) : string := NilZero.string_of_int (Z.to_int z).

(** A [repr] for arrays of integers: the elements, separated by blanks. *)
Definition repr (a : ndarray Z) : string :=
  String.concat " " (map str_of_Z (elems a)).

Definition identity : ndarray Z :=
  mk_ndarray [4; 4] [1; 0; 0; 0; 0; 1; 0; 0; 0; 0; 1; 0; 0; 0; 0; 1]%Z.

Definition flipped : ndarray Z :=
  mk_ndarray [4; 4] [1; 0; 0; 0; 0; 1; 0; 0; 0; 0; -1; 0; 0; 0; 0; 1]%Z.

(** Two files on disk; every other path fails to load. *)
Definition read_file (path : string) : result (ndarray Z * ndarray Z) :=
  if String.eqb path "a.nii" then
    Ok (mk_ndarray [1; 1; 2] [1; 2]%Z, identity)
  else if String.eqb path "b.nii" then
    Ok (mk_ndarray [1; 1; 2] [3; 4]%Z, flipped)
  else Raise (IOError path).

Definition image (s : list nat) (e : list Z) (affine : ndarray Z)
  : value Z :=
  VObj (Nifti1Image (mk_ndarray s e) affine).

Definition img_2d : value Z := image [1; 2] [1; 2]%Z identity.
Definition img_3d_a : value Z := image [1; 1; 2] [1; 2]%Z identity.
Definition img_3d_b : value Z := image [1; 1; 2] [3; 4]%Z identity.
Definition img_3d_c : value Z := image [1; 1; 2] [5; 6]%Z identity.
Definition img_3d_wide : value Z := image [2; 1; 1] [7; 8]%Z identity.
Definition img_3d_flipped : value Z := image [1; 1; 2] [3; 4]%Z flipped.
Definition obj_5d : pyobject Z :=
  Nifti1Image (mk_ndarray [1; 1; 1; 1; 2] [1; 2]%Z) identity.

(** An object with [get_data] and without [get_affine]. *)
Definition data_only : pyobject Z :=
  mk_pyobject (Method (mk_ndarray [1] [1%Z])) Missing None.

(** A volume of shape (1, 1, 4) with two components, and its labels. *)
Definition volume : ndarray Z := mk_ndarray [1; 1; 4] [5; 0; 7; 9]%Z.
Definition nonzero (z : Z) : bool := negb (Z.eqb z 0).
Definition label (fg : ndarray bool) : ndarray nat * nat :=
  (mk_ndarray [1; 1; 4] [1; 0; 2; 2], 2).

(** The masks of [test_intersect_masks]. *)
Definition mask_a : ndarray bool :=
  mk_ndarray [4; 4] [false; false; false; false;
                     false; false; false; false;
                     false; false; true;  true;
                     false; false; true;  true].

Definition mask_b : ndarray bool :=
  mk_ndarray [4; 4] [false; false; false; false;
                     false; true;  true;  false;
                     false; true;  true;  false;
                     false; false; false; false].

Definition mask_c : ndarray bool :=
  mk_ndarray [4; 4] [true;  false; true;  false;
                     false; false; true;  false;
                     false; false; true;  false;
                     false; false; true;  false].

(** A mask of one voxel, and a series of two observations over a mask of
    three voxels. *)
Definition mask_one : ndarray bool := mk_ndarray [1; 1; 1] [true].
Definition mask_3 : ndarray bool := mk_ndarray [1; 1; 3] [true; false; true].
Definition data_4d : ndarray Z :=
  mk_ndarray [1; 1; 3; 2] [1; 2; 3; 4; 5; 6]%Z.

Definition obj_3d : pyobject Z :=
  Nifti1Image (mk_ndarray [1; 1; 2] [1; 2]%Z) identity.
Definition obj_4d : pyobject Z :=
  Nifti1Image (mk_ndarray [1; 1; 2; 2] [1; 2; 3; 4]%Z) identity.

(** A volume of a single voxel, in the foreground, and its labels. *)
Definition voxel : ndarray Z := mk_ndarray [1; 1; 1] [3%Z].
Definition label_voxel (fg : ndarray bool) : ndarray nat * nat :=
  (mk_ndarray [1; 1; 1] [1], 1).

(** An object with the mixin, given a cache directory and no level. *)
Definition with_store : CacheMixin :=
  mk_CacheMixin None (Some (MemPath "/tmp/cache")).

(** An object with the mixin and no attribute at all. *)
Definition bare : CacheMixin := mk_CacheMixin None None.

(** An object whose [memory] is neither a path nor a [Memory]. *)
Definition bad_memory : CacheMixin := mk_CacheMixin (Some 2%Z) (Some MemOther).

Definition check : value Z -> result (pyobject Z) := check_niimg read_file.
Definition concat : list (value Z) -> result (pyobject Z) :=
  concat_niimgs Z.eqb repr read_file.
Definition normalize : value Z -> bool -> result (pyobject Z) :=
  check_niimgs Z.eqb repr read_file.

End Sample.

(** * Properties *)

(** ** Arrays *)

Section ArrayFacts.

Variable A : Type.

Lemma flat_map_ext_in {B : Type} (f g : B -> list A) (l : list B) :
  (forall x, In x l -> f x = g x) -> flat_map f l = flat_map g l.
Proof.
  induction l as [|x l IH]; intros H; simpl.
  - reflexivity.
  - rewrite (H x (or_introl eq_refl)). f_equal.
    apply IH. intros y Hy. apply H. right. exact Hy.
Qed.

Lemma flat_map_map {B C : Type} (f : C -> list A) (g : B -> C) (l : list B) :
  flat_map f (map g l) = flat_map (fun x => f (g x)) l.
Proof.
  induction l as [|x l IH]; simpl; [reflexivity|]. rewrite IH. reflexivity.
Qed.

(** Cutting a list into its elements and gluing them back. *)
Lemma flat_map_singletons (l : list A) :
  flat_map (fun r => firstn 1 (skipn r l)) (seq 0 (length l)) = l.
Proof.
  induction l as [|x l IH]; simpl; [reflexivity|].
  f_equal. rewrite <- seq_shift, flat_map_map. simpl. exact IH.
Qed.

(** In a concatenation of blocks of one length [k], the element of index
    [i] of block [r] sits at position [r * k + i]. *)
Lemma skipn_blocks {B : Type} (f : B -> list A) (k : nat) (d : B) :
  forall (l : list B) (r i : nat),
    (forall x, In x l -> length (f x) = k) ->
    r < length l -> i < k ->
    firstn 1 (skipn (r * k + i) (flat_map f l))
    = firstn 1 (skipn i (f (nth r l d))).
Proof.
  induction l as [|x l IH]; intros r i Hlen Hr Hi; simpl in Hr; [lia|].
  assert (Hx : length (f x) = k) by (apply Hlen; left; reflexivity).
  simpl flat_map. rewrite skipn_app, Hx.
  destruct r as [|r].
  - simpl. replace (i - k) with 0 by lia. simpl.
    assert (Hne : skipn i (f x) <> []).
    { intros E. apply (f_equal (@length A)) in E.
      rewrite length_skipn, Hx in E. simpl in E. lia. }
    destruct (skipn i (f x)) as [|y ys]; [contradiction|reflexivity].
  - rewrite (skipn_all2 (f x)) by lia.
    replace (S r * k + i - k) with (r * k + i) by lia.
    simpl. apply IH; [|lia|exact Hi].
    intros y Hy. apply Hlen. right. exact Hy.
Qed.

Lemma firstn_1_length (l : list A) (r : nat) :
  r < length l -> length (firstn 1 (skipn r l)) = 1.
Proof.
  intros H. rewrite length_firstn, length_skipn. lia.
Qed.

Lemma last_dim_app (s : list nat) (k : nat) : last_dim (s ++ [k]) = k.
Proof. unfold last_dim. apply last_last. Qed.

Lemma lead_shape_app (s : list nat) (k : nat) : lead_shape (s ++ [k]) = s.
Proof. unfold lead_shape. apply removelast_last. Qed.

Lemma prod_list_app (s t : list nat) :
  prod_list (s ++ t) = prod_list s * prod_list t.
Proof.
  induction s as [|x s IH]; simpl; [lia|]. rewrite IH. lia.
Qed.

Lemma newaxis_no_scalar (l : list (ndarray A)) :
  existsb (fun a : ndarray A => ndim a =? 0) (map newaxis l) = false.
Proof.
  induction l as [|a l IH]; simpl; [reflexivity|].
  rewrite IH. unfold ndim. simpl. rewrite length_app. simpl.
  replace (length (shape a) + 1) with (S (length (shape a))) by lia.
  reflexivity.
Qed.

Lemma newaxis_same_lead (s : list nat) (l : list (ndarray A)) :
  (forall a, In a l -> shape a = s) ->
  forallb (fun a => same_lead s (shape a)) (map newaxis l) = true.
Proof.
  induction l as [|a l IH]; intros H; simpl; [reflexivity|].
  rewrite IH by (intros b Hb; apply H; right; exact Hb).
  unfold same_lead. rewrite lead_shape_app, (H a (or_introl eq_refl)).
  destruct (list_eq_dec Nat.eq_dec s s); [reflexivity|contradiction].
Qed.

Lemma newaxis_last_sum (l : list (ndarray A)) :
  list_sum (map (fun a => last_dim (shape a)) (map newaxis l)) = length l.
Proof.
  induction l as [|a l IH]; simpl; [reflexivity|].
  rewrite IH, last_dim_app. reflexivity.
Qed.

Lemma concatenate_last_head (arrays : list (ndarray A)) (a0 : ndarray A) :
  hd_error arrays = Some a0 ->
  concatenate_last arrays
  = if existsb (fun a => ndim a =? 0) arrays then
      Raise (ValueError "zero-dimensional arrays cannot be concatenated")
    else if forallb (fun a => same_lead (lead_shape (shape a0)) (shape a))
                    arrays then
      Ok (mk_ndarray
            (lead_shape (shape a0)
             ++ [list_sum (map (fun a => last_dim (shape a)) arrays)])
            (flat_map
               (fun r => flat_map
                           (fun a => row (last_dim (shape a)) (elems a) r)
                           arrays)
               (seq 0 (prod_list (lead_shape (shape a0))))))
    else
      Raise (ValueError "all the input array dimensions except for the concatenation axis must match exactly").
Proof.
  destruct arrays as [|a rest]; simpl; [discriminate|].
  intros H. inversion H. subst. reflexivity.
Qed.

Lemma concatenate_newaxis_eq (s : list nat) (a0 : ndarray A)
    (rest : list (ndarray A)) :
  (forall a, In a (a0 :: rest) -> shape a = s) ->
  concatenate_last (map newaxis (a0 :: rest))
  = Ok (mk_ndarray
          (s ++ [length (a0 :: rest)])
          (flat_map
             (fun r => flat_map
                         (fun a => row (last_dim (shape a)) (elems a) r)
                         (map newaxis (a0 :: rest)))
             (seq 0 (prod_list s)))).
Proof.
  intros H.
  rewrite (@concatenate_last_head (map newaxis (a0 :: rest)) (newaxis a0))
    by reflexivity.
  rewrite newaxis_no_scalar.
  cbn [newaxis shape]. rewrite lead_shape_app, (H a0 (or_introl eq_refl)).
  rewrite (@newaxis_same_lead s (a0 :: rest) H), newaxis_last_sum.
  reflexivity.
Qed.

(** Stacking arrays of one shape [s], each given a trailing axis of
    length 1: the result has shape [s ++ [n]], and its slice of index [i]
    is the array of index [i]. *)
Lemma concatenate_newaxis (s : list nat) (arrays : list (ndarray A)) :
  arrays <> [] ->
  (forall a, In a arrays -> shape a = s /\ wf_ndarray a) ->
  exists stacked,
    concatenate_last (map newaxis arrays) = Ok stacked
    /\ shape stacked = s ++ [length arrays]
    /\ wf_ndarray stacked
    /\ forall i a, nth_error arrays i = Some a ->
                   take_last stacked i = Some a.
Proof.
  intros Hne Hall.
  set (P := prod_list s).
  set (block := fun r : nat =>
                  flat_map (fun a : ndarray A =>
                              row (last_dim (shape a)) (elems a) r)
                           (map newaxis arrays)).
  assert (Hcat : concatenate_last (map newaxis arrays)
                 = Ok (mk_ndarray (s ++ [length arrays])
                         (flat_map block (seq 0 P)))).
  { subst block P. destruct arrays as [|a0 rest]; [contradiction|].
    apply concatenate_newaxis_eq. intros a Ha. apply Hall. exact Ha. }
  assert (Hblock : forall r, r < P ->
            block r = flat_map (fun a => firstn 1 (skipn r (elems a))) arrays).
  { intros r Hr. unfold block. rewrite flat_map_map.
    apply flat_map_ext_in. intros a Ha. simpl.
    rewrite last_dim_app. unfold row. rewrite Nat.mul_1_r. reflexivity. }
  assert (Hblen : forall r, r < P -> length (block r) = length arrays).
  { intros r Hr. rewrite (Hblock r Hr).
    assert (G : forall l : list (ndarray A),
               (forall a, In a l -> shape a = s /\ wf_ndarray a) ->
               length (flat_map (fun a => firstn 1 (skipn r (elems a))) l)
               = length l).
    { induction l as [|a l IH]; intros Hl; cbn [flat_map length];
        [reflexivity|].
      rewrite length_app, IH by (intros b Hb; apply Hl; right; exact Hb).
      destruct (Hl a (or_introl eq_refl)) as [Hs Hwf].
      rewrite firstn_1_length; [reflexivity|].
      unfold wf_ndarray in Hwf. rewrite Hwf, Hs. exact Hr. }
    apply G. exact Hall. }
  exists (mk_ndarray (s ++ [length arrays]) (flat_map block (seq 0 P))).
  split; [exact Hcat|]. split; [reflexivity|].
  assert (Hflat : length (flat_map block (seq 0 P)) = P * length arrays).
  { assert (G : forall n start, start + n <= P ->
               length (flat_map block (seq start n)) = n * length arrays).
    { induction n as [|n IH]; intros start Hle; cbn [seq flat_map];
        [reflexivity|].
      rewrite length_app, IH by lia. rewrite Hblen by lia. reflexivity. }
    apply G. lia. }
  split.
  - unfold wf_ndarray. simpl. rewrite Hflat, prod_list_app. simpl.
    fold P. lia.
  - intros i a Hi.
    assert (Hlt : i < length arrays).
    { apply nth_error_Some. rewrite Hi. discriminate. }
    assert (Hin : In a arrays) by (eapply nth_error_In; exact Hi).
    destruct (Hall a Hin) as [Hs Hwf].
    unfold take_last. cbn [shape elems].
    destruct (s ++ [length arrays]) as [|x xs] eqn:Es.
    { destruct s; discriminate. }
    rewrite <- Es. rewrite last_dim_app, lead_shape_app.
    apply Nat.ltb_lt in Hlt. rewrite Hlt. apply Nat.ltb_lt in Hlt.
    f_equal. destruct a as [sa ea]. simpl in Hs. subst sa. f_equal.
    fold P.
    unfold wf_ndarray in Hwf. simpl in Hwf. fold P in Hwf.
    transitivity (flat_map (fun r => firstn 1 (skipn r ea))
                           (seq 0 (length ea)));
      [|apply flat_map_singletons].
    rewrite Hwf.
    apply flat_map_ext_in. intros r Hr. apply in_seq in Hr.
    rewrite (@skipn_blocks nat block (length arrays) 0 (seq 0 P) r i).
    + rewrite seq_nth by lia. cbn [Nat.add]. rewrite (Hblock r) by lia.
      replace (skipn i) with (@skipn A (i * 1 + 0)) by (f_equal; lia).
      rewrite (@skipn_blocks (ndarray A) _ 1 (mk_ndarray s ea) arrays i 0).
      * cbn [skipn]. rewrite (nth_error_nth _ _ _ Hi). cbn [elems].
        rewrite firstn_firstn. reflexivity.
      * intros b Hb. destruct (Hall b Hb) as [Hsb Hwfb].
        apply firstn_1_length. unfold wf_ndarray in Hwfb.
        rewrite Hwfb, Hsb. fold P. lia.
      * exact Hlt.
      * lia.
    + intros x0 Hx0. apply in_seq in Hx0. apply Hblen. lia.
    + rewrite length_seq. lia.
    + exact Hlt.
Qed.

End ArrayFacts.

(** ** The niimg checker *)

Section NiimgFacts.

Variable elt : Type.
Variable elt_eqb : elt -> elt -> bool.
Variable repr : ndarray elt -> string.
Variable read_file : string -> result (ndarray elt * ndarray elt).

Local Abbreviation check := (check_niimg read_file).
Local Abbreviation concat := (concat_niimgs elt_eqb repr read_file).
Local Abbreviation normalize := (check_niimgs elt_eqb repr read_file).

Arguments is_a_niimg : simpl never.

(** An object passes [is_a_niimg] exactly when both names are methods. *)
Lemma is_a_niimg_spec (o : pyobject elt) :
  is_a_niimg (VObj o) = callable (get_data o) && callable (get_affine o).
Proof.
  unfold is_a_niimg.
  destruct (get_data o), (get_affine o); reflexivity.
Qed.

Lemma is_a_niimg_methods (o : pyobject elt) :
  is_a_niimg (VObj o) = true ->
  exists d a, get_data o = Method d /\ get_affine o = Method a.
Proof.
  rewrite is_a_niimg_spec.
  destruct (get_data o) as [| |d], (get_affine o) as [| |a];
    simpl; try discriminate.
  intros _. exists d, a. split; reflexivity.
Qed.

(** Whatever [check_niimg] returns has both methods. *)
Lemma check_niimg_ok (x : value elt) (o : pyobject elt) :
  check x = Ok o -> is_a_niimg (VObj o) = true.
Proof.
  destruct x as [path|o'|l]; simpl.
  - unfold nibabel_load. destruct (read_file path) as [[d a]|e]; simpl.
    + intros H. inversion H. reflexivity.
    + discriminate.
  - destruct (is_a_niimg (VObj o')) eqn:E; simpl.
    + intros H. inversion H. subst. exact E.
    + discriminate.
  - discriminate.
Qed.

Lemma check_niimg_obj (o : pyobject elt) :
  is_a_niimg (VObj o) = true -> check (VObj o) = Ok o.
Proof.
  intros H. unfold check_niimg. rewrite H. reflexivity.
Qed.

Lemma get_shape_ok (o : pyobject elt) :
  is_a_niimg (VObj o) = true -> exists s, _get_shape o = Ok s.
Proof.
  intros H. destruct (is_a_niimg_methods o H) as (d & a & Hd & Ha).
  unfold _get_shape. destruct (shape_attr o) as [s|].
  - exists s. reflexivity.
  - rewrite Hd. simpl. exists (shape d). reflexivity.
Qed.

(** C6, as the code has it: [check_niimg] returns a non-string object
    itself exactly when the object has callable [get_data] and
    [get_affine], and fails with the [TypeError] exactly when the object
    lacks at least one of the two. *)
Theorem check_niimg_object (o : pyobject elt) :
  (check (VObj o) = Ok o <->
   callable (get_data o) = true /\ callable (get_affine o) = true)
  /\ (check (VObj o) = Raise (TypeError no_accessor_msg) <->
      callable (get_data o) = false \/ callable (get_affine o) = false).
Proof.
  unfold check_niimg. rewrite is_a_niimg_spec.
  destruct (callable (get_data o)), (callable (get_affine o)); simpl;
    (split; split; intros H;
     try reflexivity; try discriminate; try tauto;
     destruct H as [H|H] || destruct H as [H H']; discriminate).
Qed.

(** C7: [check_niimg] is idempotent: what it returns, it accepts and
    returns as it is. *)
Theorem check_niimg_idempotent (x : value elt) (o : pyobject elt) :
  check x = Ok o -> check (VObj o) = Ok o.
Proof.
  intros H. apply check_niimg_obj. exact (check_niimg_ok x H).
Qed.

(** C9: with [accept_3d], an object with both methods whose shape does not
    have three axes comes back as it is, whatever the number of axes and
    without the depth and dimension check; with three axes it comes back
    as a new image with one more trailing axis. *)
Theorem check_niimgs_accept_3d_object (o : pyobject elt) :
  is_a_niimg (VObj o) = true ->
  exists s d a,
    _get_shape o = Ok s /\ get_data o = Method d /\ get_affine o = Method a
    /\ (length s <> 3 -> normalize (VObj o) true = Ok o)
    /\ (length s = 3 ->
        normalize (VObj o) true = Ok (Nifti1Image (newaxis d) a)).
Proof.
  intros H.
  destruct (get_shape_ok o H) as (s & Hs).
  destruct (is_a_niimg_methods o H) as (d & a & Hd & Ha).
  exists s, d, a. repeat split; try assumption.
  - intros Hlen. unfold check_niimgs. simpl.
    rewrite H. simpl. rewrite Hs. simpl.
    apply Nat.eqb_neq in Hlen. rewrite Hlen. reflexivity.
  - intros Hlen. unfold check_niimgs. simpl.
    rewrite H. simpl. rewrite Hs. simpl.
    rewrite Hlen. simpl. rewrite Hd, Ha. reflexivity.
Qed.

(** C10: on the empty sequence [concat_niimgs] raises [StopIteration],
    which is neither a [ValueError] nor a [TypeError]. *)
Theorem concat_niimgs_empty :
  concat [] = Raise StopIteration
  /\ (forall msg, concat [] <> Raise (ValueError msg))
  /\ (forall msg, concat [] <> Raise (TypeError msg)).
Proof.
  repeat split; try reflexivity; intros msg; discriminate.
Qed.

(** *** The list normalizer *)

Lemma concat_niimgs_head_list (l : list (value elt)) (rest : list (value elt)) :
  concat (VSeq l :: rest) = Raise (TypeError no_accessor_msg).
Proof. reflexivity. Qed.

(** Below an input of depth 0 there is nothing to descend into. *)
Lemma descend_zero (niimgs leaf : value elt) :
  descend niimgs 0 = Ok (leaf, 0) -> niimgs = leaf.
Proof.
  destruct niimgs as [p|o|l]; simpl.
  - intros H. inversion H. reflexivity.
  - intros H. inversion H. reflexivity.
  - destruct l as [|x rest]; [discriminate|].
    assert (Hpos : forall (v : value elt) n lf d,
               descend v (S n) = Ok (lf, d) -> d <> 0).
    { fix IH 1. intros [p|o|l'] n lf d; simpl.
      - intros H. inversion H. discriminate.
      - intros H. inversion H. discriminate.
      - destruct l' as [|y ys]; [discriminate|]. apply IH. }
    intros H. exfalso. exact (Hpos _ _ _ _ H eq_refl).
Qed.

(** When the number of axes and the depth do not add up to 4, the
    [TypeError] reports both. *)
Lemma check_niimgs_depth_dim_error
    (niimgs leaf : value elt) (depth : nat) (o : pyobject elt) (s : list nat) :
  descend niimgs 0 = Ok (leaf, depth) ->
  check leaf = Ok o ->
  _get_shape o = Ok s ->
  length s + depth <> 4 ->
  normalize niimgs false
  = Raise (TypeError (depth_dim_error depth (length s))).
Proof.
  intros Hd Hc Hs Hne.
  unfold check_niimgs. simpl. rewrite Hd. simpl. rewrite Hc. simpl.
  rewrite Hs. simpl.
  apply Nat.eqb_neq in Hne. rewrite Hne. reflexivity.
Qed.

(** A 4D image at depth 0 is checked and returned. *)
Lemma check_niimgs_4d
    (niimgs : value elt) (o : pyobject elt) (s : list nat) :
  descend niimgs 0 = Ok (niimgs, 0) ->
  check niimgs = Ok o ->
  _get_shape o = Ok s ->
  length s = 4 ->
  normalize niimgs false = Ok o.
Proof.
  intros Hd Hc Hs Hlen.
  unfold check_niimgs. simpl. rewrite Hd. simpl. rewrite Hc. simpl.
  rewrite Hs. simpl. rewrite Hlen. reflexivity.
Qed.

(** A list of 3D images is handed to [concat_niimgs]. *)
Lemma check_niimgs_list_3d
    (l : list (value elt)) (leaf : value elt) (o : pyobject elt)
    (s : list nat) :
  descend (VSeq l) 0 = Ok (leaf, 1) ->
  check leaf = Ok o ->
  _get_shape o = Ok s ->
  length s = 3 ->
  normalize (VSeq l) false = concat l.
Proof.
  intros Hd Hc Hs Hlen.
  unfold check_niimgs.
  cbn [andb is_string is_iterable negb orb].
  rewrite Hd. cbn [bind fst snd]. rewrite Hc. cbn [bind].
  rewrite Hs. cbn [bind]. rewrite Hlen. reflexivity.
Qed.

(** C1, where the code departs from it: under two or more levels of
    lists, when the number of axes of the leaf and the depth add up to 4
    (a list of lists of 2D images), the depth and dimension check lets the
    input through; [concat_niimgs] then refuses its first element, a list,
    with the [TypeError] of [check_niimg], which reports neither the depth
    nor the number of axes. *)
Theorem check_niimgs_deep_nesting
    (niimgs leaf : value elt) (depth : nat) (o : pyobject elt) (s : list nat) :
  descend niimgs 0 = Ok (leaf, depth) ->
  check leaf = Ok o ->
  _get_shape o = Ok s ->
  2 <= depth ->
  length s + depth = 4 ->
  normalize niimgs false = Raise (TypeError no_accessor_msg).
Proof.
  intros Hd Hc Hs Hdepth Hsum.
  unfold check_niimgs.
  cbn [andb]. rewrite Hd. cbn [bind fst snd]. rewrite Hc. cbn [bind].
  rewrite Hs. cbn [bind].
  rewrite Hsum. cbn [Nat.eqb negb].
  assert (Hdim : (length s =? 4) = false) by (apply Nat.eqb_neq; lia).
  rewrite Hdim.
  destruct niimgs as [p|o'|l]; simpl in Hd.
  - inversion Hd. lia.
  - inversion Hd. lia.
  - destruct l as [|x rest]; [discriminate|].
    destruct x as [p|o'|l']; simpl in Hd.
    + inversion Hd. lia.
    + inversion Hd. lia.
    + reflexivity.
Qed.

(** *** The concatenator *)

Local Abbreviation loaded := (loads read_file).
Local Abbreviation same_affine := (array_equal elt_eqb).

(** As long as the affines agree, the loop collects the data arrays. *)
Lemma concat_loop_ok (affine : ndarray elt) :
  forall (l : list (value elt)) (imgs : list (ndarray elt * ndarray elt))
         (n : nat),
    Forall2 loaded l imgs ->
    (forall img, In img imgs -> same_affine (snd img) affine = true) ->
    concat_loop elt_eqb repr read_file affine n l = Ok (map (@promoted elt) imgs).
Proof.
  intros l imgs n HF. revert n.
  induction HF as [|x img l imgs (o & Hc & Hd & Ha) HF IH]; intros n Heq.
  - reflexivity.
  - cbn [concat_loop]. rewrite Hc. cbn [bind]. rewrite Ha. cbn [call bind].
    rewrite (Heq img (or_introl eq_refl)). cbn [negb].
    rewrite Hd. cbn [call bind].
    rewrite IH by (intros img' H'; apply Heq; right; exact H').
    reflexivity.
Qed.

(** The loop stops at the first image whose affine is not the reference
    one, with the [ValueError] that names it. *)
Lemma concat_loop_mismatch (affine : ndarray elt) :
  forall (l : list (value elt)) (imgs : list (ndarray elt * ndarray elt))
         (n : nat),
    Forall2 loaded l imgs ->
    (exists img, In img imgs /\ same_affine (snd img) affine = false) ->
    exists i x img,
      nth_error l i = Some x /\ nth_error imgs i = Some img
      /\ same_affine (snd img) affine = false
      /\ (forall k img', k < i -> nth_error imgs k = Some img' ->
                         same_affine (snd img') affine = true)
      /\ concat_loop elt_eqb repr read_file affine n l
         = Raise (ValueError (affine_error repr x (n + i) affine (snd img))).
Proof.
  intros l imgs n HF. revert n.
  induction HF as [|x img l imgs (o & Hc & Hd & Ha) HF IH]; intros n Hex.
  - destruct Hex as (img & [] & _).
  - destruct (same_affine (snd img) affine) eqn:E.
    + destruct (IH (S n)) as (i & x' & img' & Hx & Hi & Hne & Hmin & Hrun).
      { destruct Hex as (bad & [Hb|Hb] & Hbad).
        - subst bad. congruence.
        - exists bad. split; assumption. }
      exists (S i), x', img'. repeat split; try assumption.
      * intros k img'' Hk Hnth. destruct k as [|k]; simpl in Hnth.
        -- inversion Hnth. subst. exact E.
        -- apply (Hmin k); [lia|exact Hnth].
      * cbn [concat_loop]. rewrite Hc. cbn [bind]. rewrite Ha.
        cbn [call bind]. rewrite E. cbn [negb]. rewrite Hd. cbn [call bind].
        rewrite Hrun. cbn [bind].
        replace (n + S i) with (S n + i) by lia. reflexivity.
    + exists 0, x, img. repeat split; try assumption; try reflexivity.
      * intros k img' Hk. lia.
      * cbn [concat_loop]. rewrite Hc. cbn [bind]. rewrite Ha.
        cbn [call bind]. rewrite E. cbn [negb]. rewrite Nat.add_0_r.
        reflexivity.
Qed.

Lemma concat_niimgs_loop (x : value elt) (l : list (value elt))
    (img : ndarray elt * ndarray elt) :
  loaded x img ->
  concat (x :: l)
  = (data <- concat_loop elt_eqb repr read_file (snd img) 0 (x :: l) ;;
     data <- concatenate_last data ;;
     Ok (Nifti1Image data (snd img))).
Proof.
  intros (o & Hc & Hd & Ha).
  unfold concat_niimgs. cbn [first_item bind]. rewrite Hc. cbn [bind].
  rewrite Ha. reflexivity.
Qed.

Lemma string_app_assoc (a b c : string) :
  ((a ++ b) ++ c)%string = (a ++ b ++ c)%string.
Proof.
  induction a as [|ch a IH]; simpl; [reflexivity|]. rewrite IH. reflexivity.
Qed.

Lemma string_app_nil_r (a : string) : (a ++ "")%string = a.
Proof.
  induction a as [|ch a IH]; simpl; [reflexivity|]. rewrite IH. reflexivity.
Qed.

Lemma occurs_in_here (sub post : string) : occurs_in sub (sub ++ post).
Proof. exists "", post. reflexivity. Qed.

Lemma occurs_in_refl (sub : string) : occurs_in sub sub.
Proof. exists "", "". simpl. rewrite string_app_nil_r. reflexivity. Qed.

Lemma occurs_in_skip (s sub t : string) :
  occurs_in sub t -> occurs_in sub (s ++ t).
Proof.
  intros (pre & post & ->). exists (s ++ pre)%string, post.
  rewrite string_app_assoc. reflexivity.
Qed.

(** C4: when the affine of some image is not equal to the affine of the
    first one, [concat_niimgs] fails with a [ValueError] about the first
    such image.  Its message is the text written out below: it names the
    image, by its path when the element is a path and by its index
    otherwise, and it contains the [repr] of the reference affine and the
    [repr] of the wrong one. *)
Theorem concat_niimgs_affine_mismatch
    (l : list (value elt)) (ref : ndarray elt * ndarray elt)
    (imgs : list (ndarray elt * ndarray elt)) :
  Forall2 loaded l (ref :: imgs) ->
  (exists img, In img (ref :: imgs)
               /\ same_affine (snd img) (snd ref) = false) ->
  exists i x img msg,
    nth_error l i = Some x /\ nth_error (ref :: imgs) i = Some img
    /\ same_affine (snd img) (snd ref) = false
    /\ (forall k img', k < i -> nth_error (ref :: imgs) k = Some img' ->
                       same_affine (snd img') (snd ref) = true)
    /\ concat l = Raise (ValueError msg)
    /\ msg = ("Affine of "
              ++ match x with
                 | VStr path => "image " ++ path
                 | _ => "image #" ++ str_of_nat i
                 end
              ++ " is different from reference affine" ++ newline
              ++ "Reference affine:" ++ newline
              ++ repr (snd ref) ++ newline
              ++ "Wrong affine:" ++ newline
              ++ repr (snd img))%string
    /\ (forall path, x = VStr path -> occurs_in ("image " ++ path) msg)
    /\ ((forall path, x <> VStr path) ->
        occurs_in ("image #" ++ str_of_nat i) msg)
    /\ occurs_in (repr (snd ref)) msg
    /\ occurs_in (repr (snd img)) msg.
Proof.
  intros HF Hex.
  destruct (concat_loop_mismatch (snd ref) 0 HF Hex)
    as (i & x & img & Hx & Hi & Hne & Hmin & Hrun).
  exists i, x, img. eexists.
  split; [exact Hx|]. split; [exact Hi|]. split; [exact Hne|].
  split; [exact Hmin|].
  split; [|split; [reflexivity|]].
  { inversion HF as [|x0 r l0 imgs0 Hx0 HF0]; subst.
    rewrite (concat_niimgs_loop l0 Hx0), Hrun. cbn [bind Nat.add].
    unfold affine_error. destruct x; reflexivity. }
  split; [|split; [|split]].
  - intros path ->. apply occurs_in_skip. apply occurs_in_here.
  - intros Hx'. destruct x as [path|o|lx].
    + exfalso. exact (Hx' path eq_refl).
    + apply occurs_in_skip. apply occurs_in_here.
    + apply occurs_in_skip. apply occurs_in_here.
  - do 6 apply occurs_in_skip. apply occurs_in_here.
  - do 10 apply occurs_in_skip. apply occurs_in_refl.
Qed.

(** C5, as the code has it: 3D images of one shape and one affine are
    stacked into a 4D image with that affine, whose slices along the
    trailing axis are the data arrays of the inputs, in order. *)
Theorem concat_niimgs_stack
    (l : list (value elt)) (ref : ndarray elt * ndarray elt)
    (imgs : list (ndarray elt * ndarray elt)) (s : list nat) :
  Forall2 loaded l (ref :: imgs) ->
  length s = 3 ->
  (forall img, In img (ref :: imgs) ->
     shape (fst img) = s /\ wf_ndarray (fst img)
     /\ same_affine (snd img) (snd ref) = true) ->
  exists stacked,
    concat l = Ok (Nifti1Image stacked (snd ref))
    /\ shape stacked = s ++ [length l]
    /\ forall i img, nth_error (ref :: imgs) i = Some img ->
                     take_last stacked i = Some (fst img).
Proof.
  intros HF Hs Hall.
  assert (Hprom : map (@promoted elt) (ref :: imgs)
                  = map newaxis (map fst (ref :: imgs))).
  { rewrite map_map. apply map_ext_in. intros img Hin.
    destruct (Hall img Hin) as (Hshape & _).
    unfold promoted, ndim. rewrite Hshape, Hs. reflexivity. }
  destruct (@concatenate_newaxis elt s (map fst (ref :: imgs)))
    as (stacked & Hcat & Hshape & _ & Hslice).
  { discriminate. }
  { intros a Ha. apply in_map_iff in Ha. destruct Ha as (img & <- & Hin).
    destruct (Hall img Hin) as (H1 & H2 & _). split; assumption. }
  exists stacked. split; [|split].
  - inversion HF as [|x0 r l0 imgs0 Hx0 HF0]; subst.
    rewrite (concat_niimgs_loop l0 Hx0).
    rewrite (concat_loop_ok (snd ref) 0 HF)
      by (intros img Hin; apply Hall; exact Hin).
    cbn [bind]. rewrite Hprom, Hcat. reflexivity.
  - rewrite Hshape, length_map. f_equal. f_equal.
    symmetry. exact (Forall2_length HF).
  - intros i img Hi. apply Hslice.
    rewrite nth_error_map, Hi. reflexivity.
Qed.

End NiimgFacts.

(** *** On sample inputs *)

Lemma check_niimg_idempotent_witness :
  Sample.check (VStr "a.nii")
  = Ok (Nifti1Image (mk_ndarray [1; 1; 2] [1; 2]%Z) Sample.identity)
  /\ Sample.check
       (VObj (Nifti1Image (mk_ndarray [1; 1; 2] [1; 2]%Z) Sample.identity))
     = Ok (Nifti1Image (mk_ndarray [1; 1; 2] [1; 2]%Z) Sample.identity).
Proof.
  split; [reflexivity|].
  apply (@check_niimg_idempotent Z Sample.read_file (VStr "a.nii")).
  reflexivity.
Defined.

(** C6 as stated fails: an object with [get_data] alone does not lack
    both methods, and is refused with the [TypeError] all the same. *)
Lemma check_niimg_lacking_one :
  ~ (Sample.check (VObj Sample.data_only)
     = Raise (TypeError (no_accessor_msg))
     <-> callable (get_data Sample.data_only) = false
         /\ callable (get_affine Sample.data_only) = false).
Proof.
  intros [H _].
  assert (E : Sample.check (VObj Sample.data_only)
              = Raise (TypeError no_accessor_msg)) by reflexivity.
  destruct (H E) as [Hd _]. discriminate Hd.
Qed.

Lemma check_niimgs_accept_3d_object_witness :
  Sample.normalize (VObj Sample.obj_5d) true = Ok Sample.obj_5d.
Proof.
  destruct (@check_niimgs_accept_3d_object Z Z.eqb Sample.repr
              Sample.read_file Sample.obj_5d eq_refl)
    as (s & d & a & Hs & _ & _ & Hkeep & _).
  apply Hkeep. inversion Hs. simpl. discriminate.
Defined.

Lemma check_niimgs_deep_nesting_witness :
  Sample.normalize (VSeq [VSeq [Sample.img_2d]]) false
  = Raise (TypeError no_accessor_msg).
Proof.
  apply (@check_niimgs_deep_nesting Z Z.eqb Sample.repr Sample.read_file
           (VSeq [VSeq [Sample.img_2d]]) Sample.img_2d 2
           (Nifti1Image (mk_ndarray [1; 2] [1; 2]%Z) Sample.identity)
           [1; 2]);
    (reflexivity || lia).
Defined.

Lemma loads_image (s : list nat) (e : list Z) (affine : ndarray Z) :
  loads Sample.read_file (Sample.image s e affine) (mk_ndarray s e, affine).
Proof.
  exists (Nifti1Image (mk_ndarray s e) affine).
  repeat split; reflexivity.
Defined.

Lemma concat_niimgs_affine_mismatch_witness :
  exists i x img msg,
    nth_error [Sample.img_3d_a; Sample.img_3d_flipped; VStr "b.nii"] i
    = Some x
    /\ nth_error [(mk_ndarray [1; 1; 2] [1; 2]%Z, Sample.identity);
                  (mk_ndarray [1; 1; 2] [3; 4]%Z, Sample.flipped);
                  (mk_ndarray [1; 1; 2] [3; 4]%Z, Sample.flipped)] i
       = Some img
    /\ array_equal Z.eqb (snd img) Sample.identity = false
    /\ (forall k img', k < i ->
          nth_error [(mk_ndarray [1; 1; 2] [1; 2]%Z, Sample.identity);
                     (mk_ndarray [1; 1; 2] [3; 4]%Z, Sample.flipped);
                     (mk_ndarray [1; 1; 2] [3; 4]%Z, Sample.flipped)] k
          = Some img' ->
          array_equal Z.eqb (snd img') Sample.identity = true)
    /\ Sample.concat [Sample.img_3d_a; Sample.img_3d_flipped; VStr "b.nii"]
       = Raise (ValueError msg)
    /\ msg = ("Affine of "
              ++ match x with
                 | VStr path => "image " ++ path
                 | _ => "image #" ++ str_of_nat i
                 end
              ++ " is different from reference affine" ++ newline
              ++ "Reference affine:" ++ newline
              ++ Sample.repr Sample.identity ++ newline
              ++ "Wrong affine:" ++ newline
              ++ Sample.repr (snd img))%string
    /\ (forall path, x = VStr path -> occurs_in ("image " ++ path) msg)
    /\ ((forall path, x <> VStr path) ->
        occurs_in ("image #" ++ str_of_nat i) msg)
    /\ occurs_in (Sample.repr Sample.identity) msg
    /\ occurs_in (Sample.repr (snd img)) msg.
Proof.
  apply (@concat_niimgs_affine_mismatch Z Z.eqb Sample.repr Sample.read_file
           [Sample.img_3d_a; Sample.img_3d_flipped; VStr "b.nii"]
           (mk_ndarray [1; 1; 2] [1; 2]%Z, Sample.identity)
           [(mk_ndarray [1; 1; 2] [3; 4]%Z, Sample.flipped);
            (mk_ndarray [1; 1; 2] [3; 4]%Z, Sample.flipped)]).
  - repeat constructor; try apply loads_image.
  - exists (mk_ndarray [1; 1; 2] [3; 4]%Z, Sample.flipped).
    split; [right; left; reflexivity | reflexivity].
Defined.

(** The message on the samples: the index for an object, the path for a
    path. *)
Example concat_niimgs_mismatch_by_index :
  Sample.concat [Sample.img_3d_a; Sample.img_3d_flipped; VStr "b.nii"]
  = Raise (ValueError
             ("Affine of image #1 is different from reference affine"
              ++ newline ++ "Reference affine:" ++ newline
              ++ "1 0 0 0 0 1 0 0 0 0 1 0 0 0 0 1" ++ newline
              ++ "Wrong affine:" ++ newline
              ++ "1 0 0 0 0 1 0 0 0 0 -1 0 0 0 0 1")%string).
Proof. reflexivity. Qed.

Example concat_niimgs_mismatch_by_path :
  Sample.concat [VStr "a.nii"; VStr "b.nii"]
  = Raise (ValueError
             ("Affine of image b.nii is different from reference affine"
              ++ newline ++ "Reference affine:" ++ newline
              ++ "1 0 0 0 0 1 0 0 0 0 1 0 0 0 0 1" ++ newline
              ++ "Wrong affine:" ++ newline
              ++ "1 0 0 0 0 1 0 0 0 0 -1 0 0 0 0 1")%string).
Proof. reflexivity. Qed.

Lemma concat_niimgs_stack_witness :
  exists stacked,
    Sample.concat [Sample.img_3d_a; Sample.img_3d_b; Sample.img_3d_c]
    = Ok (Nifti1Image stacked Sample.identity)
    /\ shape stacked = [1; 1; 2; 3]
    /\ forall i img,
         nth_error [(mk_ndarray [1; 1; 2] [1; 2]%Z, Sample.identity);
                    (mk_ndarray [1; 1; 2] [3; 4]%Z, Sample.identity);
                    (mk_ndarray [1; 1; 2] [5; 6]%Z, Sample.identity)] i
         = Some img ->
         take_last stacked i = Some (fst img).
Proof.
  apply (@concat_niimgs_stack Z Z.eqb Sample.repr Sample.read_file
           [Sample.img_3d_a; Sample.img_3d_b; Sample.img_3d_c]
           (mk_ndarray [1; 1; 2] [1; 2]%Z, Sample.identity)
           [(mk_ndarray [1; 1; 2] [3; 4]%Z, Sample.identity);
            (mk_ndarray [1; 1; 2] [5; 6]%Z, Sample.identity)]
           [1; 1; 2]).
  - repeat constructor; apply loads_image.
  - reflexivity.
  - intros img [<-|[<-|[<-|[]]]]; repeat split; reflexivity.
Defined.

Example concat_niimgs_three :
  Sample.concat [Sample.img_3d_a; Sample.img_3d_b; Sample.img_3d_c]
  = Ok (Nifti1Image (mk_ndarray [1; 1; 2; 3] [1; 3; 5; 2; 4; 6]%Z)
          Sample.identity).
Proof. reflexivity. Qed.

(** C5 as stated fails: two loadable 3D images with one affine and
    different shapes are refused by the stacking. *)
Lemma concat_niimgs_shapes_differ :
  loads Sample.read_file Sample.img_3d_a
    (mk_ndarray [1; 1; 2] [1; 2]%Z, Sample.identity)
  /\ loads Sample.read_file Sample.img_3d_wide
       (mk_ndarray [2; 1; 1] [7; 8]%Z, Sample.identity)
  /\ array_equal Z.eqb Sample.identity Sample.identity = true
  /\ Sample.concat [Sample.img_3d_a; Sample.img_3d_wide]
     = Raise (ValueError
                "all the input array dimensions except for the concatenation axis must match exactly").
Proof.
  repeat split; try apply loads_image; reflexivity.
Qed.

(** ** Connected components *)

Section CountFacts.

Lemma positions_length (l : list bool) (start : nat) :
  length (positions start l) = count_true l.
Proof.
  revert start. unfold count_true.
  induction l as [|b l IH]; intros start; [reflexivity|].
  destruct b; simpl; rewrite IH; reflexivity.
Qed.

Lemma positions_In (l : list bool) :
  forall start p, nth p l false = true -> In (start + p) (positions start l).
Proof.
  induction l as [|b l IH]; intros start p H.
  - destruct p; discriminate.
  - destruct p as [|p]; simpl in H.
    + subst b. simpl. left. lia.
    + replace (start + S p) with (S start + p) by lia.
      cbn [positions]. destruct b; [right|]; apply IH; exact H.
Qed.

(** Distinct foreground positions are no more than the foreground. *)
Lemma count_true_bound (l : list bool) (c : list nat) :
  NoDup c -> (forall r, In r c -> nth r l false = true) ->
  length c <= count_true l.
Proof.
  intros Hnd Hc. rewrite <- (positions_length l 0).
  apply NoDup_incl_length; [exact Hnd|].
  intros r Hr. apply (positions_In l 0 r). apply Hc. exact Hr.
Qed.

Lemma count_true_zero (l : list bool) (p : nat) :
  count_true l = 0 -> nth p l false = false.
Proof.
  intros H. destruct (nth p l false) eqn:E; [|reflexivity].
  assert (B : length [p] <= count_true l).
  { apply count_true_bound.
    - constructor; [intros []|constructor].
    - intros r [<-|[]]. exact E. }
  simpl in B. lia.
Qed.

Lemma count_true_pos (l : list bool) :
  count_true l <> 0 -> exists p, p < length l /\ nth p l false = true.
Proof.
  unfold count_true. induction l as [|b l IH]; simpl; [contradiction|].
  destruct b; simpl.
  - intros _. exists 0. split; [lia|reflexivity].
  - intros H. destruct (IH H) as (p & Hp & Hn).
    exists (S p). split; [lia|exact Hn].
Qed.

Lemma nth_true_length (l : list bool) (p : nat) :
  nth p l false = true -> p < length l.
Proof.
  intros H. destruct (Nat.lt_ge_cases p (length l)) as [|Hge]; [assumption|].
  rewrite nth_overflow in H by exact Hge. discriminate.
Qed.

Lemma nth_map_lt {B C : Type} (f : B -> C) (l : list B) (d : C) (d' : B) :
  forall i, i < length l -> nth i (map f l) d = f (nth i l d').
Proof.
  induction l as [|x l IH]; intros [|i] H; simpl in *; try lia.
  - reflexivity.
  - apply IH. lia.
Qed.

Lemma nth_map_false {B : Type} (f : B -> bool) (l : list B) (d : B) (p : nat) :
  p < length l -> nth p (map f l) false = f (nth p l d).
Proof.
  intros H. rewrite (nth_indep _ false (f d)) by (rewrite length_map; exact H).
  apply map_nth.
Qed.

Lemma count_true_eqb (l : list nat) (k : nat) :
  count_true (map (fun v => v =? k) l) = count_occ Nat.eq_dec l k.
Proof.
  unfold count_true. induction l as [|x l IH]; simpl; [reflexivity|].
  destruct (Nat.eq_dec x k) as [->|Hne].
  - rewrite Nat.eqb_refl. simpl. rewrite IH. reflexivity.
  - apply Nat.eqb_neq in Hne. rewrite Hne. simpl. exact IH.
Qed.

Lemma list_max_ge (l : list nat) (x : nat) : In x l -> x <= list_max l.
Proof.
  intros H.
  assert (F : Forall (fun k => k <= list_max l) l)
    by (apply list_max_le; lia).
  rewrite Forall_forall in F. apply F. exact H.
Qed.

Lemma bincount_nth (l : list nat) (v : nat) :
  In v l -> nth v (bincount l) 0 = count_occ Nat.eq_dec l v.
Proof.
  intros H. pose proof (list_max_ge l v H) as Hle.
  unfold bincount. destruct l as [|x l']; [destruct H|].
  set (l := x :: l') in *.
  rewrite (nth_indep _ 0 (count_occ Nat.eq_dec l 0))
    by (rewrite length_map, length_seq; lia).
  rewrite map_nth, seq_nth by lia. reflexivity.
Qed.

Lemma bincount_nth_any (l : list nat) (v : nat) :
  v < length (bincount l) -> nth v (bincount l) 0 = count_occ Nat.eq_dec l v.
Proof.
  unfold bincount. destruct l as [|x l']; [simpl; lia|].
  set (l := x :: l') in *. rewrite length_map, length_seq. intros H.
  rewrite (nth_indep _ 0 (count_occ Nat.eq_dec l 0))
    by (rewrite length_map, length_seq; lia).
  rewrite map_nth, seq_nth by lia. reflexivity.
Qed.

(** [argmax_from] keeps the best index seen so far, or finds a strictly
    larger entry further on; in both cases nothing in the list exceeds
    the value at the index it returns. *)
Lemma argmax_from_spec (l : list nat) :
  forall best_i best_v i,
    let r := argmax_from best_i best_v i l in
    (r = best_i /\ Forall (fun x => x <= best_v) l)
    \/ (i <= r < i + length l /\ best_v < nth (r - i) l 0
        /\ Forall (fun x => x <= nth (r - i) l 0) l).
Proof.
  induction l as [|x l IH]; intros best_i best_v i; simpl.
  - left. split; [reflexivity|constructor].
  - destruct (best_v <? x) eqn:E.
    + apply Nat.ltb_lt in E.
      destruct (IH i x (S i)) as [[Hr Hall]|(Hr & Hlt & Hall)].
      * right. rewrite Hr. rewrite Nat.sub_diag. simpl.
        repeat split; try lia. constructor; [lia|exact Hall].
      * right.
        replace (argmax_from i x (S i) l - i)
          with (S (argmax_from i x (S i) l - S i)) by lia.
        simpl. repeat split; try lia. constructor; [lia|exact Hall].
    + apply Nat.ltb_ge in E.
      destruct (IH best_i best_v (S i)) as [[Hr Hall]|(Hr & Hlt & Hall)].
      * left. split; [exact Hr|]. constructor; [exact E|exact Hall].
      * right.
        replace (argmax_from best_i best_v (S i) l - i)
          with (S (argmax_from best_i best_v (S i) l - S i)) by lia.
        simpl. repeat split; try lia. constructor; [lia|exact Hall].
Qed.

(** [argmax] returns the position of a maximum. *)
Lemma argmax_spec (l : list nat) (k : nat) :
  argmax l = Ok k ->
  k < length l /\ forall j, nth j l 0 <= nth k l 0.
Proof.
  destruct l as [|x l]; [discriminate|]. simpl. intros H. inversion H as [Hk].
  clear H.
  assert (Hall : forall m, Forall (fun y => y <= m) (x :: l) ->
                           forall j, nth j (x :: l) 0 <= m).
  { intros m F j. rewrite Forall_forall in F.
    destruct (Nat.lt_ge_cases j (length (x :: l))) as [Hj|Hj].
    - apply F. apply nth_In. exact Hj.
    - rewrite nth_overflow by exact Hj. lia. }
  destruct (argmax_from_spec l 0 x 1) as [[Hr F]|(Hr & Hlt & F)].
  - rewrite Hr. simpl. split; [lia|].
    apply Hall. constructor; [lia|exact F].
  - set (r := argmax_from 0 x 1 l) in *.
    destruct r as [|r]; [lia|]. simpl in *. rewrite Nat.sub_0_r in *.
    split; [lia|]. apply Hall. constructor; [lia|exact F].
Qed.

End CountFacts.

Section ComponentFacts.

Variable label : ndarray bool -> ndarray nat * nat.
Variable adj : nat -> nat -> Prop.

Lemma connected_fg (fg : list bool) (p q : nat) :
  connected adj fg p q -> fg_at fg p /\ fg_at fg q.
Proof.
  induction 1 as [p Hp|p q r Hp _ _ [_ Hr]]; split; assumption.
Qed.

Lemma nth_eqb_true (l : list nat) (k p : nat) :
  nth p (map (fun v => v =? k) l) false = true
  <-> p < length l /\ nth p l 0 = k.
Proof.
  split.
  - intros H. pose proof (nth_true_length _ _ H) as Hp.
    rewrite length_map in Hp. split; [exact Hp|].
    rewrite (nth_map_false _ l 0 Hp) in H. apply Nat.eqb_eq. exact H.
  - intros [Hp Hk]. rewrite (nth_map_false _ l 0 Hp). apply Nat.eqb_eq.
    exact Hk.
Qed.

(** The positions of a label that occurs most often make a largest
    component. *)
Lemma label_component (fg : ndarray bool) (labels : ndarray nat) (nb k : nat) :
  label_spec adj fg labels nb ->
  1 <= k -> In k (elems labels) ->
  (forall v, 1 <= v ->
     count_occ Nat.eq_dec (elems labels) v
     <= count_occ Nat.eq_dec (elems labels) k) ->
  largest_component adj (elems fg) (map (fun v => v =? k) (elems labels)).
Proof.
  intros [Hsh Hlen Hbg Hbd Hused Hcomp] Hk Hin Hmax.
  set (L := elems labels) in *.
  assert (Hfg : forall p, p < length L -> nth p L 0 <> 0 ->
                          fg_at (elems fg) p).
  { intros p Hp Hne. unfold fg_at.
    destruct (nth p (elems fg) false) eqn:E; [reflexivity|].
    exfalso. apply Hne. apply Hbg; [rewrite <- Hlen; exact Hp|exact E]. }
  assert (Hlab : forall p, fg_at (elems fg) p ->
                           p < length L /\ 1 <= nth p L 0).
  { intros p Hp. pose proof (nth_true_length _ _ Hp) as Hlt.
    split; [rewrite Hlen; exact Hlt|].
    destruct (nth p L 0) eqn:E; [|lia].
    apply Hbg in E; [|exact Hlt]. unfold fg_at in Hp. congruence. }
  split; [|split].
  - intros p Hp. apply nth_eqb_true in Hp. destruct Hp as [Hp Hv].
    apply Hfg; [exact Hp|lia].
  - destruct (In_nth L k 0 Hin) as (p0 & Hp0 & Hv0).
    exists p0. split; [apply nth_eqb_true; split; assumption|].
    assert (F0 : fg_at (elems fg) p0) by (apply Hfg; [exact Hp0|lia]).
    intros q. split.
    + intros Hq. apply nth_eqb_true in Hq. destruct Hq as [Hq Hv].
      apply Hcomp; try (rewrite <- Hlen; assumption); try assumption.
      * apply Hfg; [exact Hq|lia].
      * fold L. congruence.
    + intros Hc. destruct (connected_fg Hc) as [_ Fq].
      destruct (Hlab q Fq) as [Hq _].
      apply nth_eqb_true. split; [exact Hq|].
      apply Hcomp in Hc; try (rewrite <- Hlen; assumption); try assumption.
      fold L in Hc. congruence.
  - intros q c Fq Hnd Hc.
    destruct (Hlab q Fq) as [Hq Hv].
    rewrite count_true_eqb.
    transitivity (count_occ Nat.eq_dec L (nth q L 0)); [|apply Hmax; exact Hv].
    rewrite <- count_true_eqb. apply count_true_bound; [exact Hnd|].
    intros r Hr. specialize (Hc r Hr).
    destruct (connected_fg Hc) as [_ Fr].
    destruct (Hlab r Fr) as [Hrl _].
    apply nth_eqb_true. split; [exact Hrl|].
    apply Hcomp in Hc; try (rewrite <- Hlen; assumption); try assumption.
    fold L in Hc. congruence.
Qed.

Variable A : Type.
Variable nonzero : A -> bool.

(** What holds at the start of a chain and is kept by every step to a
    foreground neighbour holds at its end. *)
Lemma connected_invariant (fg : list bool) (S : nat -> Prop) :
  (forall p q, S p -> adj p q -> fg_at fg q -> S q) ->
  forall p q, connected adj fg p q -> S p -> S q.
Proof.
  intros Hstep p q Hc. induction Hc as [p Hp|p q r Hp Hadj Hc IH].
  - intros H. exact H.
  - intros H. apply IH. apply (Hstep p q H Hadj).
    destruct (connected_fg Hc) as [Hq _]. exact Hq.
Qed.

(** C8: on a volume without foreground the restriction to the largest
    connected component fails with the [ValueError]; on any other volume
    it returns a mask of the shape of the volume that lies in the
    foreground and is one connected component, a largest one.  The
    labelling is the one [label] promises for this volume. *)
Theorem largest_connected_component_spec (volume : ndarray A) :
  let fg := map_nd nonzero volume in
  label_spec adj fg (fst (label fg)) (snd (label fg)) ->
  (count_true (elems fg) = 0 ->
   largest_connected_component label nonzero volume
   = Raise (ValueError no_component_msg))
  /\ (count_true (elems fg) <> 0 ->
      exists m,
        largest_connected_component label nonzero volume = Ok m
        /\ shape m = shape volume
        /\ length (elems m) = length (elems volume)
        /\ largest_component adj (elems fg) (elems m)).
Proof.
  intros fg HL. unfold largest_connected_component. fold fg.
  destruct (label fg) as [labels nb] eqn:El. cbn [fst snd] in HL.
  pose proof HL as [Hsh Hlen Hbg Hbd Hused Hcomp].
  set (L := elems labels) in *.
  assert (Hflen : length (elems fg) = length (elems volume))
    by (unfold fg; simpl; apply length_map).
  split.
  - intros Hzero. destruct nb as [|nb]; [reflexivity|].
    exfalso. destruct (Hused 1) as (p & Hp & Hv); [lia|].
    pose proof (count_true_zero (elems fg) p Hzero) as E.
    apply Hbg in E; [|exact Hp]. fold L in Hv. lia.
  - intros Hpos.
    destruct (count_true_pos _ Hpos) as (p1 & Hp1 & F1).
    assert (Hv1 : 1 <= nth p1 L 0 <= nb).
    { split; [|apply Hbd].
      destruct (nth p1 L 0) eqn:E; [|lia].
      apply Hbg in E; [congruence|exact Hp1]. }
    assert (Hin1 : In (nth p1 L 0) L).
    { apply nth_In. rewrite Hlen. exact Hp1. }
    destruct (nb =? 0) eqn:E0; [apply Nat.eqb_eq in E0; lia|].
    destruct (nb =? 1) eqn:E1.
    + apply Nat.eqb_eq in E1. subst nb.
      exists fg. split; [reflexivity|]. split; [reflexivity|].
      split; [exact Hflen|].
      assert (Heq : elems fg = map (fun v => v =? 1) L).
      { apply (nth_ext _ _ false false).
        - rewrite length_map. symmetry. exact Hlen.
        - intros p Hp.
          rewrite (nth_map_false _ L 0) by (rewrite Hlen; exact Hp).
          destruct (nth p (elems fg) false) eqn:E.
          + symmetry. apply Nat.eqb_eq.
            pose proof (Hbd p) as Hle. fold L in Hle.
            destruct (nth p L 0) eqn:E'; [|lia].
            apply Hbg in E'; [congruence|exact Hp].
          + apply Hbg in E; [|exact Hp]. fold L in E. rewrite E.
            reflexivity. }
      pose proof (@label_component fg labels 1 1 HL (le_n 1)) as Hc.
      fold L in Hc. rewrite <- Heq in Hc. apply Hc.
      * replace 1 with (nth p1 L 0) by lia. exact Hin1.
      * intros v Hv. destruct (count_occ Nat.eq_dec L v) eqn:Ec; [lia|].
        assert (Hinv : In v L) by (apply (count_occ_In Nat.eq_dec); lia).
        destruct (In_nth L v 0 Hinv) as (q & _ & Hq).
        pose proof (Hbd q) as Hle. fold L in Hle.
        assert (Ev : v = 1) by lia. rewrite Ev in Ec. rewrite Ec. lia.
    + assert (Hbc : length (bincount L) = S (list_max L)).
      { unfold bincount. destruct L as [|x l']; [destruct Hin1|].
        rewrite length_map, length_seq. reflexivity. }
      destruct (bincount L) as [|c0 cs] eqn:Ebc; [discriminate|].
      cbn [discard_zero bind].
      destruct (argmax (0 :: cs)) as [k|e] eqn:Ek; [|discriminate].
      cbn [bind].
      destruct (argmax_spec _ Ek) as [Hk Hmaxk].
      assert (Hcs : forall v, 1 <= v -> In v L ->
                              nth v (0 :: cs) 0 = count_occ Nat.eq_dec L v).
      { intros v Hv Hinv. rewrite <- (bincount_nth L v Hinv), Ebc.
        destruct v; [lia|reflexivity]. }
      assert (Hone : 1 <= nth k (0 :: cs) 0).
      { transitivity (nth (nth p1 L 0) (0 :: cs) 0); [|apply Hmaxk].
        rewrite Hcs by (lia || assumption).
        apply (count_occ_In Nat.eq_dec) in Hin1. lia. }
      assert (Hk1 : 1 <= k) by (destruct k; [simpl in Hone; lia|lia]).
      assert (Hkc : nth k (0 :: cs) 0 = count_occ Nat.eq_dec L k).
      { rewrite <- (@bincount_nth_any L k), Ebc.
        - destruct k; [lia|reflexivity].
        - rewrite Ebc. exact Hk. }
      exists (map_nd (fun v => v =? k) labels).
      split; [reflexivity|]. split; [simpl; rewrite Hsh; reflexivity|].
      split; [simpl; rewrite length_map; fold L; congruence|].
      simpl. apply (@label_component fg labels nb k HL Hk1).
      * fold L. apply (count_occ_In Nat.eq_dec). lia.
      * fold L. intros v Hv.
        destruct (count_occ Nat.eq_dec L v) eqn:Ec; [lia|].
        assert (Hinv : In v L) by (apply (count_occ_In Nat.eq_dec); lia).
        rewrite <- Ec, <- Hkc, <- (Hcs v Hv Hinv). apply Hmaxk.
Qed.

End ComponentFacts.

(** *** On a sample volume *)

(** Closes a goal about explicit positions of the sample volume. *)
Ltac sample_position :=
  solve [ reflexivity
        | lia
        | match goal with
          | H : fg_at _ _ |- _ => unfold fg_at in H; simpl in H; discriminate H
          end
        | match goal with
          | H : distance _ _ = 1 |- _ => vm_compute in H; discriminate H
          end
        | match goal with
          | H : _ < prod_list _ |- _ => simpl in H; lia
          end
        | match goal with
          | H : _ < length _ |- _ => simpl in H; lia
          end ].

Lemma sample_adjacent_low (q : nat) :
  face_adjacent [1; 1; 4] 0 q -> fg_at [true; false; true; true] q -> q = 0.
Proof.
  intros (_ & Hq & Hd) Hfg.
  destruct q as [|[|[|[|q]]]]; sample_position.
Qed.

Lemma sample_adjacent_high (p q : nat) :
  2 <= p -> face_adjacent [1; 1; 4] p q ->
  fg_at [true; false; true; true] q -> 2 <= q.
Proof.
  intros Hp (Hlt & Hq & Hd) Hfg.
  destruct q as [|[|q]]; [|sample_position|lia].
  destruct p as [|[|[|[|p]]]]; sample_position.
Qed.

Lemma sample_adjacent_step (a b : nat) :
  a < 4 -> b < 4 -> a = S b \/ b = S a -> face_adjacent [1; 1; 4] a b.
Proof.
  intros Ha Hb Hab. repeat split; try exact Ha; try exact Hb.
  destruct a as [|[|[|[|a]]]]; try lia;
    destruct b as [|[|[|[|b]]]]; try lia; reflexivity.
Qed.

Lemma sample_label_spec :
  label_spec (face_adjacent [1; 1; 4])
    (map_nd Sample.nonzero Sample.volume)
    (fst (Sample.label (map_nd Sample.nonzero Sample.volume)))
    (snd (Sample.label (map_nd Sample.nonzero Sample.volume))).
Proof.
  change (map_nd Sample.nonzero Sample.volume)
    with (mk_ndarray [1; 1; 4] [true; false; true; true]).
  constructor; cbn [fst snd Sample.label elems shape].
  - reflexivity.
  - reflexivity.
  - intros p Hp.
    destruct p as [|[|[|[|p]]]]; try sample_position;
      simpl; split; intros; (reflexivity || discriminate).
  - intros p. destruct p as [|[|[|[|[|p]]]]]; simpl; lia.
  - intros k Hk. assert (Ek : k = 1 \/ k = 2) by lia.
    destruct Ek as [-> | ->]; [exists 0|exists 2]; simpl; split;
      (lia || reflexivity).
  - intros p q Hp Hq Fp Fq.
    split.
    + intros Hl.
      destruct p as [|[|[|[|p]]]]; try sample_position;
        destruct q as [|[|[|[|q]]]]; try sample_position;
        try discriminate Hl;
        try (apply connected_refl; reflexivity);
        match goal with
        | |- connected _ _ ?a ?b =>
            apply (@connected_step _ _ a b b Fp);
            [apply sample_adjacent_step; lia
            |apply connected_refl; reflexivity]
        end.
    + intros Hc.
      destruct p as [|[|p]]; [|sample_position|].
      * pose proof (@connected_invariant (face_adjacent [1; 1; 4])
                      [true; false; true; true] (fun x => x = 0)
                      (fun a b Ha Hab Hb =>
                         sample_adjacent_low
                           (eq_ind a (fun z => face_adjacent _ z b) Hab 0 Ha)
                           Hb)
                      0 q Hc eq_refl) as E.
        cbv beta in E. subst q. reflexivity.
      * assert (Hq2 : 2 <= q).
        { apply (@connected_invariant (face_adjacent [1; 1; 4])
                   [true; false; true; true] (fun x => 2 <= x)
                   sample_adjacent_high (S (S p)) q Hc). lia. }
        destruct p as [|[|p]]; try sample_position;
          destruct q as [|[|[|[|q]]]]; sample_position.
Qed.

Lemma largest_connected_component_spec_witness :
  (count_true (elems (map_nd Sample.nonzero Sample.volume)) = 0 ->
   largest_connected_component Sample.label Sample.nonzero Sample.volume
   = Raise (ValueError no_component_msg))
  /\ (count_true (elems (map_nd Sample.nonzero Sample.volume)) <> 0 ->
      exists m,
        largest_connected_component Sample.label Sample.nonzero Sample.volume
        = Ok m
        /\ shape m = shape Sample.volume
        /\ length (elems m) = length (elems Sample.volume)
        /\ largest_component (face_adjacent [1; 1; 4])
             (elems (map_nd Sample.nonzero Sample.volume)) (elems m)).
Proof.
  exact (@largest_connected_component_spec Sample.label
           (face_adjacent [1; 1; 4]) Z Sample.nonzero Sample.volume
           sample_label_spec).
Defined.

Example largest_connected_component_sample :
  largest_connected_component Sample.label Sample.nonzero Sample.volume
  = Ok (mk_ndarray [1; 1; 4] [false; false; true; true]).
Proof. reflexivity. Qed.

(** ** Masking *)

Section MaskingFacts.

Variable elt : Type.
Variable zero : elt.

Lemma nth_blocks {B : Type} (f : B -> list elt) (k : nat) (d : elt) (dB : B) :
  forall (l : list B) (r i : nat),
    (forall x, In x l -> length (f x) = k) ->
    r < length l -> i < k ->
    nth (r * k + i) (flat_map f l) d = nth i (f (nth r l dB)) d.
Proof.
  induction l as [|x l IH]; intros r i Hlen Hr Hi; simpl in Hr; [lia|].
  assert (Hx : length (f x) = k) by (apply Hlen; left; reflexivity).
  cbn [flat_map]. destruct r as [|r].
  - cbn [nth Nat.mul Nat.add]. apply app_nth1. lia.
  - rewrite app_nth2 by lia. rewrite Hx.
    replace (S r * k + i - k) with (r * k + i) by lia.
    cbn [nth]. apply IH; [|lia|exact Hi].
    intros y Hy. apply Hlen. right. exact Hy.
Qed.

Lemma length_blocks {B : Type} (f : B -> list elt) (k : nat) (l : list B) :
  (forall x, In x l -> length (f x) = k) ->
  length (flat_map f l) = length l * k.
Proof.
  induction l as [|x l IH]; intros H; cbn [flat_map length]; [reflexivity|].
  rewrite length_app, IH, (H x (or_introl eq_refl)); [lia|].
  intros y Hy. apply H. right. exact Hy.
Qed.

Lemma nth_map_seq {B : Type} (f : nat -> B) (n i : nat) (d : B) :
  i < n -> nth i (map f (seq 0 n)) d = f i.
Proof.
  intros H. rewrite (nth_indep _ d (f 0)) by (rewrite length_map, length_seq; lia).
  rewrite map_nth, seq_nth by lia. reflexivity.
Qed.

(** The rank of a foreground voxel among the foreground voxels is its
    place in the enumeration. *)
Lemma positions_rank (l : list bool) :
  forall start v d,
    nth v l false = true ->
    nth (count_true (firstn v l)) (positions start l) d = start + v
    /\ count_true (firstn v l) < count_true l.
Proof.
  unfold count_true.
  induction l as [|b l IH]; intros start v d H.
  - destruct v; discriminate.
  - destruct v as [|v].
    + simpl in H. subst b. simpl. split; lia.
    + simpl in H. destruct (IH (S start) v d H) as [IH1 IH2].
      cbn [firstn positions]. destruct b; simpl.
      * rewrite IH1. split; lia.
      * rewrite IH1. split; lia.
Qed.

(** C2: unmasking what [apply_mask] extracted gives the image back with
    every voxel outside the mask set to zero. *)
Theorem unmask_apply_mask (data : ndarray elt) (mask : ndarray bool)
    (n_obs : nat) :
  shape data = shape mask ++ [n_obs] ->
  wf_ndarray data -> wf_ndarray mask ->
  (series <- apply_mask zero data mask ;; unmask zero series mask)
  = Ok (zero_outside zero data mask).
Proof.
  intros Hshape Hwd Hwm.
  destruct data as [sd D]. destruct mask as [sm M].
  cbn [shape elems] in *. unfold wf_ndarray in *. cbn [shape elems] in *.
  subst sd. rewrite prod_list_app in Hwd. simpl in Hwd.
  rewrite Nat.mul_1_r, <- Hwm in Hwd.
  set (T := n_obs) in *. set (V := length M) in *.
  unfold apply_mask, zero_outside. cbn [shape elems].
  rewrite last_dim_app, lead_shape_app.
  destruct (sm ++ [T]) as [|x xs] eqn:Es; [destruct sm; discriminate|].
  rewrite <- Es. clear x xs Es.
  unfold shape_eqb.
  destruct (list_eq_dec Nat.eq_dec sm sm) as [_|Hne]; [|contradiction].
  cbn [bind]. unfold unmask. cbn [shape elems].
  rewrite positions_length, Nat.eqb_refl.
  f_equal. f_equal.
  set (n := count_true M).
  set (S := flat_map
              (fun t => map (fun v => nth (v * T + t) D zero) (positions 0 M))
              (seq 0 T)).
  set (block := fun v : nat =>
                  if nth v M false
                  then map (fun t => nth (t * n + count_true (firstn v M)) S zero)
                           (seq 0 T)
                  else repeat zero T).
  assert (Hblock : forall v, In v (seq 0 V) -> length (block v) = T).
  { intros v _. unfold block. destruct (nth v M false).
    - rewrite length_map, length_seq. reflexivity.
    - apply repeat_length. }
  assert (Hrow : forall t, In t (seq 0 T) ->
            length (map (fun v => nth (v * T + t) D zero) (positions 0 M)) = n).
  { intros t _. rewrite length_map. apply positions_length. }
  fold V.
  apply (nth_ext _ _ zero zero).
  - rewrite (length_blocks block (seq 0 V) Hblock).
    rewrite length_map, !length_seq. lia.
  - rewrite (length_blocks block (seq 0 V) Hblock), length_seq.
    intros i Hi.
    assert (HT : T <> 0) by (intros E; rewrite E in Hi; lia).
    pose proof (Nat.div_mod_eq i T) as Hdm.
    pose proof (Nat.mod_upper_bound i T HT) as Ht.
    assert (Hv : i / T < V).
    { apply Nat.Div0.div_lt_upper_bound. lia. }
    rewrite nth_map_seq by lia.
    replace i with (i / T * T + i mod T) at 1 by lia.
    rewrite (@nth_blocks nat block T zero 0 (seq 0 V) (i / T) (i mod T)
               Hblock)
      by (rewrite ?length_seq; lia).
    rewrite seq_nth by lia. cbn [Nat.add]. unfold block.
    destruct (nth (i / T) M false) eqn:Em.
    + destruct (positions_rank M 0 (i / T) 0 Em) as [Hpos Hrank].
      fold n in Hrank.
      rewrite nth_map_seq by lia. unfold S.
      rewrite (@nth_blocks nat _ n zero 0 (seq 0 T) (i mod T)
                 (count_true (firstn (i / T) M)) Hrow)
        by (rewrite ?length_seq; lia).
      rewrite seq_nth by lia. cbn [Nat.add].
      rewrite (nth_indep _ zero (nth (0 * T + i mod T) D zero))
        by (rewrite length_map, positions_length; exact Hrank).
      rewrite (map_nth (fun v => nth (v * T + i mod T) D zero)).
      rewrite Hpos. cbn [Nat.add]. f_equal. lia.
    + apply nth_repeat.
Qed.

End MaskingFacts.

(** ** Combining masks *)

Section IntersectFacts.

Variable label : ndarray bool -> ndarray nat * nat.

Lemma add_mask_nth (counts : list nat) (m : ndarray bool) (v : nat) :
  length (elems m) = length counts -> v < length counts ->
  nth v (add_mask counts m) 0
  = nth v counts 0 + (if nth v (elems m) false then 1 else 0).
Proof.
  intros Hlen Hv. unfold add_mask.
  rewrite (nth_map_lt _ _ 0 (0, false)) by (rewrite length_combine; lia).
  rewrite combine_nth by (symmetry; exact Hlen). reflexivity.
Qed.

Lemma add_mask_length (counts : list nat) (m : ndarray bool) :
  length (elems m) = length counts ->
  length (add_mask counts m) = length counts.
Proof.
  intros H. unfold add_mask. rewrite length_map, length_combine. lia.
Qed.

(** Adding the masks up counts, voxel by voxel, the masks that mark it. *)
Lemma votes_from (input_masks : list (ndarray bool)) :
  forall init,
    (forall m, In m input_masks -> length (elems m) = length init) ->
    length (fold_left add_mask input_masks init) = length init
    /\ forall v, v < length init ->
         nth v (fold_left add_mask input_masks init) 0
         = nth v init 0 + vote_count input_masks v.
Proof.
  induction input_masks as [|m l IH]; intros init Hlen.
  - split; [reflexivity|]. intros v _. unfold vote_count. simpl. lia.
  - assert (Hm : length (elems m) = length init)
      by (apply Hlen; left; reflexivity).
    destruct (IH (add_mask init m)) as [IH1 IH2].
    { intros m' Hm'. rewrite add_mask_length by exact Hm.
      apply Hlen. right. exact Hm'. }
    rewrite add_mask_length in IH1, IH2 by exact Hm.
    cbn [fold_left]. split; [exact IH1|].
    intros v Hv. rewrite (IH2 v Hv), add_mask_nth by assumption.
    unfold vote_count. cbn [filter].
    destruct (nth v (elems m) false); simpl; lia.
Qed.

Lemma votes_nth (input_masks : list (ndarray bool)) (size v : nat) :
  (forall m, In m input_masks -> length (elems m) = size) ->
  v < size ->
  nth v (votes input_masks size) 0 = vote_count input_masks v.
Proof.
  intros Hlen Hv. unfold votes.
  destruct (votes_from input_masks (repeat 0 size)) as [_ H].
  { intros m Hm. rewrite repeat_length. apply Hlen. exact Hm. }
  rewrite H by (rewrite repeat_length; exact Hv).
  rewrite nth_repeat. reflexivity.
Qed.

Lemma votes_length (input_masks : list (ndarray bool)) (size : nat) :
  (forall m, In m input_masks -> length (elems m) = size) ->
  length (votes input_masks size) = size.
Proof.
  intros Hlen. unfold votes.
  destruct (votes_from input_masks (repeat 0 size)) as [H _].
  { intros m Hm. rewrite repeat_length. apply Hlen. exact Hm. }
  rewrite H. apply repeat_length.
Qed.

Lemma vote_count_le (input_masks : list (ndarray bool)) (v : nat) :
  vote_count input_masks v <= length input_masks.
Proof. unfold vote_count. apply filter_length_le. Qed.

(** All the masks mark a voxel exactly when its count is their number. *)
Lemma vote_count_all (input_masks : list (ndarray bool)) (v : nat) :
  vote_count input_masks v = length input_masks
  <-> forall m, In m input_masks -> nth v (elems m) false = true.
Proof.
  unfold vote_count. induction input_masks as [|m l IH]; cbn [filter].
  - split; [intros _ m []|reflexivity].
  - pose proof (filter_length_le (fun m => nth v (elems m) false) l) as Hle.
    destruct (nth v (elems m) false) eqn:E; cbn [length].
    + split.
      * intros H m' [<-|Hin]; [exact E|]. apply IH; [lia|exact Hin].
      * intros H. f_equal. apply IH. intros m' Hin. apply H. right. exact Hin.
    + split; [lia|]. intros H.
      rewrite (H m (or_introl eq_refl)) in E. discriminate.
Qed.

Lemma exceeds_strict (threshold : Q) (count total : nat) :
  ~ (threshold == 1)%Q ->
  (exceeds threshold count total = true
   <-> (threshold < fraction count total)%Q).
Proof.
  intros Hne. unfold exceeds.
  destruct (Qeq_bool threshold 1) eqn:E.
  - apply Qeq_bool_iff in E. contradiction.
  - rewrite negb_true_iff. split.
    + intros H. apply Qnot_le_lt. intros Hle.
      apply Qle_bool_iff in Hle. congruence.
    + intros H. destruct (Qle_bool (fraction count total) threshold) eqn:El;
        [|reflexivity].
      apply Qle_bool_iff in El. exfalso. exact (Qlt_not_le _ _ H El).
Qed.

Lemma exceeds_one (threshold : Q) (count total : nat) :
  (threshold == 1)%Q -> exceeds threshold count total = (count =? total).
Proof.
  intros H. unfold exceeds. apply Qeq_bool_iff in H. rewrite H. reflexivity.
Qed.

Lemma same_shape_forallb (first : ndarray bool) (l : list (ndarray bool)) :
  (forall m, In m l -> shape m = shape first) ->
  forallb (fun m => shape_eqb (shape m) (shape first)) l = true.
Proof.
  intros H. apply forallb_forall. intros m Hm. unfold shape_eqb.
  destruct (list_eq_dec Nat.eq_dec (shape m) (shape first)) as [_|Hne];
    [reflexivity|].
  exfalso. apply Hne. apply H. exact Hm.
Qed.

(** Without the restriction to a component, the result is the vote. *)
Lemma intersect_masks_votes (first : ndarray bool) (rest : list (ndarray bool))
    (threshold : Q) :
  (forall m, In m (first :: rest) -> shape m = shape first /\ wf_ndarray m) ->
  intersect_masks label (first :: rest) threshold false
  = Ok (mk_ndarray (shape first)
          (map (fun c => exceeds threshold c (length (first :: rest)))
               (votes (first :: rest) (length (elems first)))))
  /\ (forall m, In m (first :: rest) ->
        length (elems m) = length (elems first)).
Proof.
  intros H. split.
  - unfold intersect_masks.
    rewrite same_shape_forallb by (intros m Hm; apply H; exact Hm).
    reflexivity.
  - intros m Hm. destruct (H m Hm) as [Hs Hw].
    destruct (H first (or_introl eq_refl)) as [_ Hwf].
    unfold wf_ndarray in *. rewrite Hw, Hwf, Hs. reflexivity.
Qed.

Lemma intersect_masks_vote (first : ndarray bool) (rest : list (ndarray bool))
    (threshold : Q) :
  (forall m, In m (first :: rest) -> shape m = shape first /\ wf_ndarray m) ->
  exists grp,
    intersect_masks label (first :: rest) threshold false = Ok grp
    /\ shape grp = shape first
    /\ length (elems grp) = length (elems first)
    /\ forall v, v < length (elems first) ->
         (~ (threshold == 1)%Q ->
          (nth v (elems grp) false = true
           <-> (threshold < fraction (vote_count (first :: rest) v)
                                     (length (first :: rest)))%Q))
         /\ ((threshold == 1)%Q ->
             (nth v (elems grp) false = true
              <-> forall m, In m (first :: rest) ->
                            nth v (elems m) false = true)).
Proof.
  intros H. destruct (intersect_masks_votes threshold H) as [Hrun Hlen].
  eexists. split; [exact Hrun|]. cbn [shape elems].
  split; [reflexivity|].
  split; [rewrite length_map; apply votes_length; exact Hlen|].
  intros v Hv.
  rewrite (nth_map_lt _ _ false 0) by (rewrite votes_length; assumption).
  rewrite votes_nth by assumption.
  split.
  - intros Hne. apply exceeds_strict. exact Hne.
  - intros Heq. rewrite (exceeds_one _ _ Heq), Nat.eqb_eq.
    apply vote_count_all.
Qed.

Lemma intersect_masks_pair (a b : ndarray bool) (threshold : Q)
    (f : bool -> bool -> bool) :
  shape b = shape a -> wf_ndarray a -> wf_ndarray b ->
  (forall x y : bool,
     exceeds threshold ((if x then 1 else 0) + (if y then 1 else 0)) 2
     = f x y) ->
  intersect_masks label [a; b] threshold false = Ok (voxelwise f a b).
Proof.
  intros Hs Ha Hb Hf.
  assert (H : forall m, In m [a; b] -> shape m = shape a /\ wf_ndarray m).
  { intros m [<-|[<-|[]]]; split; assumption || reflexivity. }
  destruct (intersect_masks_votes threshold H) as [Hrun Hlen].
  rewrite Hrun. unfold voxelwise. f_equal. f_equal.
  assert (Hlb : length (elems b) = length (elems a))
    by (apply Hlen; right; left; reflexivity).
  apply (nth_ext _ _ false false).
  - rewrite !length_map, length_combine, votes_length by exact Hlen. lia.
  - rewrite length_map, votes_length by exact Hlen. intros v Hv.
    rewrite (nth_map_lt _ _ false 0) by (rewrite votes_length; assumption).
    rewrite votes_nth by assumption.
    rewrite (nth_map_lt _ _ false (false, false))
      by (rewrite length_combine; lia).
    rewrite combine_nth by (symmetry; exact Hlb). cbn [fst snd].
    rewrite <- Hf. unfold vote_count. cbn [filter length].
    destruct (nth v (elems a) false), (nth v (elems b) false); reflexivity.
Qed.

(** C3, as the specification allows it: without the restriction to a
    component, a voxel is foreground exactly when the fraction of the
    masks marking it strictly exceeds a threshold below 1 and, at
    threshold 1, exactly when all the masks mark it; for two masks,
    threshold 1 gives their voxel-wise conjunction and threshold 0 their
    voxel-wise disjunction. *)
Theorem intersect_masks_spec :
  (forall (first : ndarray bool) (rest : list (ndarray bool)) (threshold : Q),
     (forall m, In m (first :: rest) ->
                shape m = shape first /\ wf_ndarray m) ->
     (0 <= threshold <= 1)%Q ->
     exists grp,
       intersect_masks label (first :: rest) threshold false = Ok grp
       /\ shape grp = shape first
       /\ length (elems grp) = length (elems first)
       /\ forall v, v < length (elems first) ->
            (~ (threshold == 1)%Q ->
             (nth v (elems grp) false = true
              <-> (threshold < fraction (vote_count (first :: rest) v)
                                        (length (first :: rest)))%Q))
            /\ ((threshold == 1)%Q ->
                (nth v (elems grp) false = true
                 <-> forall m, In m (first :: rest) ->
                               nth v (elems m) false = true)))
  /\ (forall a b : ndarray bool,
        shape b = shape a -> wf_ndarray a -> wf_ndarray b ->
        intersect_masks label [a; b] 1 false = Ok (voxelwise andb a b)
        /\ intersect_masks label [a; b] 0 false = Ok (voxelwise orb a b)).
Proof.
  split.
  - intros first rest threshold H _. apply intersect_masks_vote. exact H.
  - intros a b Hs Ha Hb. split.
    + apply intersect_masks_pair; try assumption.
      intros [|] [|]; reflexivity.
    + apply intersect_masks_pair; try assumption.
      intros [|] [|]; reflexivity.
Qed.

End IntersectFacts.

(** *** On sample masks *)

Lemma unmask_apply_mask_witness :
  (series <- apply_mask 0%Z Sample.data_4d Sample.mask_3 ;;
   unmask 0%Z series Sample.mask_3)
  = Ok (zero_outside 0%Z Sample.data_4d Sample.mask_3).
Proof.
  apply (@unmask_apply_mask Z 0%Z Sample.data_4d Sample.mask_3 2);
    reflexivity.
Defined.

Example round_trip_sample :
  apply_mask 0%Z Sample.data_4d Sample.mask_3
  = Ok (mk_ndarray [2; 2] [1; 5; 2; 6]%Z)
  /\ unmask 0%Z (mk_ndarray [2; 2] [1; 5; 2; 6]%Z) Sample.mask_3
     = Ok (mk_ndarray [1; 1; 3; 2] [1; 2; 0; 0; 5; 6]%Z).
Proof. split; reflexivity. Qed.

(** A series with the wrong number of voxels is refused, in both call
    forms. *)
Example unmask_wrong_size :
  unmask 0%Z (mk_ndarray [3] [1; 2; 3]%Z) Sample.mask_3
  = Raise (ValueError
             "the series does not have one value per voxel of the mask")
  /\ unmask_list 0%Z [mk_ndarray [3] [1; 2; 3]%Z] Sample.mask_3
     = Raise (ValueError
                "the series does not have one value per voxel of the mask").
Proof. split; reflexivity. Qed.

(** C3 as stated fails at threshold 1: where both masks mark a voxel the
    fraction is 1, which does not strictly exceed 1, and yet the voxel is
    in the conjunction of the masks, which is what [intersect_masks]
    returns there. *)
Lemma intersect_masks_threshold_one :
  intersect_masks Sample.label [Sample.mask_one; Sample.mask_one] 1 false
  = Ok (voxelwise andb Sample.mask_one Sample.mask_one)
  /\ nth 0 (elems (voxelwise andb Sample.mask_one Sample.mask_one)) false
     = true
  /\ ~ (1 < fraction (vote_count [Sample.mask_one; Sample.mask_one] 0) 2)%Q.
Proof.
  split; [reflexivity|]. split; [reflexivity|].
  intros H. vm_compute in H. discriminate H.
Qed.

(** No combiner at all can mark a voxel exactly when the fraction
    strictly exceeds the threshold, for every threshold up to 1, and also
    return the conjunction of two masks at threshold 1. *)
Lemma strict_vote_excludes_conjunction
    (combine_masks : list (ndarray bool) -> Q -> result (ndarray bool)) :
  ~ ((forall masks threshold grp v,
        combine_masks masks threshold = Ok grp ->
        (nth v (elems grp) false = true
         <-> (threshold < fraction (vote_count masks v) (length masks))%Q))
     /\ (forall a b, combine_masks [a; b] 1%Q = Ok (voxelwise andb a b))).
Proof.
  intros [Hvote Hand].
  pose proof (Hand Sample.mask_one Sample.mask_one) as Hrun.
  destruct (Hvote _ _ _ 0 Hrun) as [H _].
  specialize (H eq_refl). vm_compute in H. discriminate H.
Qed.

Lemma intersect_masks_spec_witness :
  (exists grp,
     intersect_masks Sample.label
       [Sample.mask_a; Sample.mask_b; Sample.mask_c] (1 # 2) false = Ok grp
     /\ shape grp = [4; 4]
     /\ length (elems grp) = 16
     /\ forall v, v < 16 ->
          (~ (1 # 2 == 1)%Q ->
           (nth v (elems grp) false = true
            <-> (1 # 2 < fraction
                           (vote_count
                              [Sample.mask_a; Sample.mask_b; Sample.mask_c] v)
                           3)%Q))
          /\ ((1 # 2 == 1)%Q ->
              (nth v (elems grp) false = true
               <-> forall m,
                     In m [Sample.mask_a; Sample.mask_b; Sample.mask_c] ->
                     nth v (elems m) false = true)))
  /\ intersect_masks Sample.label [Sample.mask_a; Sample.mask_b] 1 false
     = Ok (voxelwise andb Sample.mask_a Sample.mask_b)
  /\ intersect_masks Sample.label [Sample.mask_a; Sample.mask_b] 0 false
     = Ok (voxelwise orb Sample.mask_a Sample.mask_b).
Proof.
  destruct (intersect_masks_spec Sample.label) as [Hvote Hpair].
  split.
  - apply (Hvote Sample.mask_a [Sample.mask_b; Sample.mask_c] (1 # 2)).
    + intros m [<-|[<-|[<-|[]]]]; split; reflexivity.
    + split; discriminate.
  - apply (Hpair Sample.mask_a Sample.mask_b); reflexivity.
Defined.

(** The assertions of [test_intersect_masks], without the restriction to
    a component. *)
Example intersect_masks_test :
  intersect_masks Sample.label [Sample.mask_a; Sample.mask_b] 1 false
  = Ok (mk_ndarray [4; 4] [false; false; false; false;
                           false; false; false; false;
                           false; false; true;  false;
                           false; false; false; false])
  /\ intersect_masks Sample.label
       [Sample.mask_a; Sample.mask_b; Sample.mask_c] 0 false
     = Ok (mk_ndarray [4; 4] [true;  false; true;  false;
                              false; true;  true;  false;
                              false; true;  true;  true;
                              false; false; true;  true])
  /\ intersect_masks Sample.label
       [Sample.mask_a; Sample.mask_b; Sample.mask_c] (1 # 2) false
     = Ok (mk_ndarray [4; 4] [false; false; false; false;
                              false; false; true;  false;
                              false; false; true;  false;
                              false; false; true;  false]).
Proof. repeat split; reflexivity. Qed.

Example intersect_masks_refusals :
  intersect_masks Sample.label [] (1 # 2) false
  = Raise (ValueError "no mask to intersect")
  /\ intersect_masks Sample.label [Sample.mask_a; Sample.mask_one] (1 # 2)
       false
     = Raise (ValueError "the masks do not have the same shape").
Proof. split; reflexivity. Qed.

(** ** Caching *)

Section CachingFacts.

Variable func : Type.
Variable func_name : func -> string.

Local Abbreviation cache := (_cache func_name).

(** Splits a goal about [_cache] along the comparisons of levels. *)
Ltac cache_compare :=
  match goal with
  | |- context [(?a =? 0)%Z] => is_var a; destruct (a =? 0)%Z eqn:?
  | |- context [(?a <? ?b)%Z] => destruct (a <? b)%Z eqn:?
  end.

Ltac cache_cases :=
  unfold _cache, effective_level;
  cbn -[Z.ltb Z.eqb];
  change (0 =? 0)%Z with true; change (1 =? 0)%Z with false;
  cbn -[Z.ltb Z.eqb];
  repeat (cache_compare; cbn -[Z.ltb Z.eqb];
          change (0 =? 0)%Z with true; change (1 =? 0)%Z with false;
          cbn -[Z.ltb Z.eqb]).

(** X12: with a store (a path, or a [Memory] with a [cachedir]), the function
    is cached there exactly when the requested level does not exceed the
    level of the object, a level 0 or an absent level counting as 1; the
    object keeps that level. *)
Theorem cache_with_store (self : CacheMixin) (f : func) (level : Z)
    (dir : string) :
  location self = Some dir ->
  returned (cache self f level)
  = Ok (mk_memorized f
          (if (effective_level self <? level)%Z then None else Some dir))
  /\ memory_level (after (cache self f level)) = Some (effective_level self)
  /\ memory (after (cache self f level)) = memory self.
Proof.
  destruct self as [[l|] [[path|[d|]|]|]]; cbn [location memory];
    intros H; try discriminate H; inversion H; subst;
    cache_cases; repeat split; reflexivity || congruence.
Qed.

(** X13: without a store (no [memory] attribute, or a [Memory] without
    [cachedir]) the call never fails and never caches on disk; the level
    of the object is kept (0 when absent), and the warning that caching is
    deactivated is issued exactly when that level reaches the requested
    one. *)
Theorem cache_without_store (self : CacheMixin) (f : func) (level : Z) :
  memory self = None \/ memory self = Some (MemObject None) ->
  let own := match memory_level self with Some l => l | None => 0%Z end in
  returned (cache self f level) = Ok (mk_memorized f None)
  /\ after (cache self f level)
     = mk_CacheMixin (Some own) (Some (MemObject None))
  /\ warnings (cache self f level)
     = if (own <? level)%Z then [] else [no_store_warning func_name own f].
Proof.
  destruct self as [[l|] m]; cbn [memory memory_level];
    intros [-> | ->]; cache_cases; repeat split; reflexivity || congruence.
Qed.

(** X14: a [memory] that is neither a path nor a [Memory] is refused with the
    [TypeError] only when the level of the object is not 0 and reaches the
    requested level; below the requested level the call succeeds without
    caching, and at level 0 (or without level) it fails with an
    [AttributeError] instead. *)
Theorem cache_bad_memory (self : CacheMixin) (f : func) (level : Z) :
  memory self = Some MemOther ->
  let own := match memory_level self with Some l => l | None => 0%Z end in
  returned (cache self f level)
  = if (own =? 0)%Z then Raise (AttributeError "cachedir")
    else if (own <? level)%Z then Ok (mk_memorized f None)
    else Raise memory_type_error.
Proof.
  destruct self as [[l|] m]; cbn [memory memory_level]; intros ->;
    cache_cases; reflexivity || congruence.
Qed.

(** X15: after a call the object has both attributes, and a second call with
    the same arguments leaves it as it is, returns the same, and does not
    warn again that the level is set to 1. *)
Theorem cache_twice (self : CacheMixin) (f : func) (level : Z) :
  let first := cache self f level in
  let second := cache (after first) f level in
  memory_level (after first) <> None
  /\ memory (after first) <> None
  /\ after second = after first
  /\ returned second = returned first
  /\ ~ In level_warning (warnings second).
Proof.
  destruct self as [[l|] [[path|[d|]|]|]];
    cache_cases;
    try congruence;
    (repeat split; try reflexivity; try discriminate;
     intros H; cbn in H;
     repeat (destruct H as [H|H]; [discriminate H|]); exact H).
Qed.

End CachingFacts.

Lemma cache_with_store_witness :
  returned (_cache (fun name : string => name) Sample.with_store "smooth" 1)
  = Ok (mk_memorized "smooth" (Some "/tmp/cache"))
  /\ memory_level
       (after (_cache (fun name : string => name) Sample.with_store
                 "smooth" 1))
     = Some 1%Z
  /\ memory
       (after (_cache (fun name : string => name) Sample.with_store
                 "smooth" 1))
     = memory Sample.with_store.
Proof.
  apply (@cache_with_store string (fun name => name) Sample.with_store
           "smooth" 1%Z "/tmp/cache").
  reflexivity.
Defined.

Lemma cache_without_store_witness :
  returned (_cache (fun name : string => name) Sample.bare "smooth" 0)
  = Ok (mk_memorized "smooth" None)
  /\ after (_cache (fun name : string => name) Sample.bare "smooth" 0)
     = mk_CacheMixin (Some 0%Z) (Some (MemObject None))
  /\ warnings (_cache (fun name : string => name) Sample.bare "smooth" 0)
     = ["Caching has been enabled (memory_level = 0) but no Memory object or path has been provided (parameter memory). Caching deactivated for function smooth."].
Proof.
  apply (@cache_without_store string (fun name => name) Sample.bare
           "smooth" 0%Z).
  left. reflexivity.
Defined.

Lemma cache_bad_memory_witness :
  returned (_cache (fun name : string => name) Sample.bad_memory "smooth" 1)
  = Raise memory_type_error.
Proof.
  apply (@cache_bad_memory string (fun name => name) Sample.bad_memory
           "smooth" 1%Z).
  reflexivity.
Defined.

(** ** More on the checkers *)

Lemma bind_ok {A B : Type} (c : result A) (k : A -> result B) (b : B) :
  (x <- c ;; k x) = Ok b -> exists a, c = Ok a /\ k a = Ok b.
Proof.
  destruct c as [a|e]; simpl; [|discriminate].
  intros H. exists a. split; [reflexivity|exact H].
Qed.

Section NiimgMore.

Variable elt : Type.
Variable elt_eqb : elt -> elt -> bool.
Variable repr : ndarray elt -> string.
Variable read_file : string -> result (ndarray elt * ndarray elt).

Local Abbreviation check := (check_niimg read_file).
Local Abbreviation concat := (concat_niimgs elt_eqb repr read_file).
Local Abbreviation normalize := (check_niimgs elt_eqb repr read_file).
Local Abbreviation loaded := (loads read_file).
Local Abbreviation same_affine := (array_equal elt_eqb).

(** What [concat_niimgs] returns is a new image, over the first array the
    loop collected. *)
Lemma concat_niimgs_ok (l : list (value elt)) (o : pyobject elt) :
  concat l = Ok o ->
  exists first rest o1 d1 affine arrays stacked,
    l = first :: rest /\ check first = Ok o1 /\ get_data o1 = Method d1
    /\ concatenate_last (promoted (d1, affine) :: arrays) = Ok stacked
    /\ o = Nifti1Image stacked affine.
Proof.
  unfold concat_niimgs. intros H.
  apply bind_ok in H. destruct H as (first & Hf & H).
  destruct l as [|x rest]; [discriminate|]. inversion Hf. subst x.
  apply bind_ok in H. destruct H as (o1 & Hc & H).
  apply bind_ok in H. destruct H as (affine & Ha & H).
  apply bind_ok in H. destruct H as (data & Hl & H).
  apply bind_ok in H. destruct H as (stacked & Hs & H).
  inversion H. subst o.
  cbn [concat_loop] in Hl. rewrite Hc in Hl. cbn [bind] in Hl.
  rewrite Ha in Hl. cbn [bind] in Hl.
  destruct (negb (array_equal elt_eqb affine affine)); [discriminate|].
  apply bind_ok in Hl. destruct Hl as (d1 & Hd & Hl).
  apply bind_ok in Hl. destruct Hl as (arrays & _ & Hl).
  inversion Hl. subst data.
  exists first, rest, o1, d1, affine, arrays, stacked.
  repeat split; try assumption.
  - destruct (get_data o1) as [| |d]; try discriminate.
    inversion Hd. reflexivity.
Qed.

Lemma check_niimgs_returns_niimg_aux (x : value elt) (accept_3d : bool)
    (o : pyobject elt) :
  normalize x accept_3d = Ok o -> is_a_niimg (VObj o) = true.
Proof.
  unfold check_niimgs.
  destruct (accept_3d && (is_string x || negb (is_iterable x))).
  - intros H. apply bind_ok in H. destruct H as (niimg & Hc & H).
    apply bind_ok in H. destruct H as (s & Hs & H).
    destruct (length s =? 3).
    + apply bind_ok in H. destruct H as (d & _ & H).
      apply bind_ok in H. destruct H as (a & _ & H).
      inversion H. reflexivity.
    + inversion H. subst o. exact (check_niimg_ok _ _ Hc).
  - intros H. apply bind_ok in H. destruct H as ([leaf depth] & Hd & H).
    apply bind_ok in H. destruct H as (first_img & Hc & H).
    apply bind_ok in H. destruct H as (s & Hs & H).
    cbn [fst snd] in H.
    destruct (negb (length s + depth =? 4)); [discriminate|].
    destruct (length s =? 4).
    + exact (check_niimg_ok _ _ H).
    + apply bind_ok in H. destruct H as (l & _ & H).
      destruct (concat_niimgs_ok _ H) as (? & ? & ? & ? & ? & ? & ? & _ & _ & _ & _ & ->).
      reflexivity.
Qed.

(** X1: whatever [check_niimgs] returns has callable [get_data] and
    [get_affine]. *)
Theorem check_niimgs_returns_niimg (x : value elt) (accept_3d : bool)
    (o : pyobject elt) :
  normalize x accept_3d = Ok o -> is_a_niimg (VObj o) = true.
Proof.
  intros H. exact (check_niimgs_returns_niimg_aux x accept_3d H).
Qed.

Lemma check_niimgs_leaf_4d (x : value elt) (o : pyobject elt)
    (s : list nat) (accept_3d : bool) :
  (forall l, x <> VSeq l) ->
  check x = Ok o -> _get_shape o = Ok s -> length s = 4 ->
  normalize x accept_3d = Ok o.
Proof.
  intros Hx Hc Hs Hlen.
  assert (Hd : descend x 0 = Ok (x, 0)).
  { destruct x as [p|o'|l]; try reflexivity. exfalso. exact (Hx l eq_refl). }
  destruct accept_3d.
  - unfold check_niimgs.
    assert (E : is_string x || negb (is_iterable x) = true).
    { destruct x as [p|o'|l]; try reflexivity. exfalso. exact (Hx l eq_refl). }
    rewrite E. cbn [andb]. rewrite Hc. cbn [bind]. rewrite Hs. cbn [bind].
    rewrite Hlen. reflexivity.
  - apply (@check_niimgs_4d elt elt_eqb repr read_file x o s); assumption.
Qed.

(** X2: an input that is not a list and resolves to a 4D image comes
    back as the checker resolved it, with or without [accept_3d]. *)
Theorem check_niimgs_4d_unchanged (x : value elt) (o : pyobject elt)
    (s : list nat) (accept_3d : bool) :
  (forall l, x <> VSeq l) ->
  check x = Ok o -> _get_shape o = Ok s -> length s = 4 ->
  normalize x accept_3d = Ok o.
Proof.
  intros Hx Hc Hs Hlen.
  apply check_niimgs_leaf_4d with (s := s); assumption.
Qed.

(** X3: [accept_3d] only accepts more: what is returned without it is
    returned with it. *)
Theorem check_niimgs_accept_3d_monotone (x : value elt) (o : pyobject elt) :
  normalize x false = Ok o -> normalize x true = Ok o.
Proof.
  destruct x as [p|o'|l]; [| |intros H; exact H].
  - intros H. unfold check_niimgs in *. cbn [andb is_string orb] in *.
    cbn [descend bind fst snd] in H.
    destruct (check (VStr p)) as [o1|e]; [|discriminate].
    cbn [bind] in *. destruct (_get_shape o1) as [s|e]; [|discriminate].
    cbn [bind] in *. rewrite Nat.add_0_r in H.
    destruct (length s =? 4) eqn:E; [|discriminate].
    cbn [negb] in H. apply Nat.eqb_eq in E. rewrite E. exact H.
  - intros H. unfold check_niimgs in *.
    cbn [andb is_string is_iterable negb orb] in *.
    cbn [descend bind fst snd] in H.
    destruct (check (VObj o')) as [o1|e]; [|discriminate].
    cbn [bind] in *. destruct (_get_shape o1) as [s|e]; [|discriminate].
    cbn [bind] in *. rewrite Nat.add_0_r in H.
    destruct (length s =? 4) eqn:E; [|discriminate].
    cbn [negb] in H. apply Nat.eqb_eq in E. rewrite E. exact H.
Qed.

Lemma descend_hollow (x : value elt) :
  hollow x = true -> forall n, descend x n = Raise StopIteration.
Proof.
  revert x. fix IH 1. intros [p|o|l]; cbn [hollow descend].
  - discriminate.
  - discriminate.
  - destruct l as [|y ys]; [reflexivity|].
    intros H n. apply IH. exact H.
Qed.

(** X4: a list whose chain of first elements ends in an empty list makes
    [check_niimgs] raise [StopIteration], with or without [accept_3d]. *)
Theorem check_niimgs_hollow (x : value elt) (accept_3d : bool) :
  hollow x = true -> normalize x accept_3d = Raise StopIteration.
Proof.
  intros H. pose proof (descend_hollow x H 0) as Hd.
  destruct x as [p|o|l]; try discriminate H.
  unfold check_niimgs. cbn [is_string is_iterable negb orb].
  rewrite Bool.andb_false_r. rewrite Hd. reflexivity.
Qed.

Lemma promoted_shape (img : ndarray elt * ndarray elt) :
  ndim (fst img) = 3 \/ ndim (fst img) = 4 ->
  ndim (promoted img) = 4
  /\ lead_shape (shape (promoted img)) = spatial (fst img)
  /\ last_dim (shape (promoted img)) = volumes (fst img).
Proof.
  unfold promoted, spatial, volumes. intros [H|H]; rewrite H; cbn [Nat.eqb].
  - unfold ndim in *. cbn [newaxis shape].
    rewrite length_app, H, lead_shape_app, last_dim_app.
    repeat split; reflexivity.
  - repeat split; try reflexivity. exact H.
Qed.

(** X5: 3D and 4D images of one spatial shape and one affine are stacked
    into an image of that spatial shape with as many volumes as the
    inputs bring together, a 3D image counting for one. *)
Theorem concat_niimgs_volumes
    (l : list (value elt)) (ref : ndarray elt * ndarray elt)
    (imgs : list (ndarray elt * ndarray elt)) (s : list nat) :
  Forall2 loaded l (ref :: imgs) ->
  (forall img, In img (ref :: imgs) ->
     (ndim (fst img) = 3 \/ ndim (fst img) = 4)
     /\ spatial (fst img) = s
     /\ same_affine (snd img) (snd ref) = true) ->
  exists stacked,
    concat l = Ok (Nifti1Image stacked (snd ref))
    /\ shape stacked
       = s ++ [list_sum (map (fun img => volumes (fst img)) (ref :: imgs))].
Proof.
  intros HF Hall.
  inversion HF as [|x0 r l0 imgs0 Hx0 HF0]; subst.
  rewrite (concat_niimgs_loop elt_eqb repr l0 Hx0).
  rewrite (concat_loop_ok elt_eqb repr (snd ref) 0 HF)
    by (intros img Hin; apply Hall; exact Hin).
  cbn [bind].
  rewrite (@concatenate_last_head elt (map (@promoted elt) (ref :: imgs))
             (promoted ref)) by reflexivity.
  assert (Hz : existsb (fun a : ndarray elt => ndim a =? 0)
                 (map (@promoted elt) (ref :: imgs)) = false).
  { apply Bool.not_true_is_false. intros E. apply existsb_exists in E.
    destruct E as (a & Ha & E). apply in_map_iff in Ha.
    destruct Ha as (img & <- & Hin). destruct (Hall img Hin) as (Hd & _).
    destruct (promoted_shape img Hd) as (H4 & _). rewrite H4 in E.
    discriminate E. }
  rewrite Hz.
  assert (Hlead : forall img, In img (ref :: imgs) ->
                    lead_shape (shape (promoted img)) = s).
  { intros img Hin. destruct (Hall img Hin) as (Hd & Hsp & _).
    destruct (promoted_shape img Hd) as (_ & Hl & _). congruence. }
  assert (Hf : forallb (fun a : ndarray elt =>
                          same_lead (lead_shape (shape (promoted ref)))
                                    (shape a))
                 (map (@promoted elt) (ref :: imgs)) = true).
  { apply forallb_forall. intros a Ha. apply in_map_iff in Ha.
    destruct Ha as (img & <- & Hin). unfold same_lead.
    rewrite (Hlead img Hin), (Hlead ref (or_introl eq_refl)).
    destruct (list_eq_dec Nat.eq_dec s s); [reflexivity|contradiction]. }
  rewrite Hf. cbn [bind]. eexists. split; [reflexivity|].
  cbn [shape]. rewrite (Hlead ref (or_introl eq_refl)). f_equal. f_equal.
  rewrite map_map. f_equal. apply map_ext_in. intros img Hin.
  destruct (Hall img Hin) as (Hd & _).
  destruct (promoted_shape img Hd) as (_ & _ & Hv). exact Hv.
Qed.

Lemma concat_loop_unloadable (affine : ndarray elt) (x : value elt)
    (rest : list (value elt)) (e : exn) :
  check x = Raise e ->
  forall (pre : list (value elt)) (imgs : list (ndarray elt * ndarray elt))
         (n : nat),
    Forall2 loaded pre imgs ->
    (forall img, In img imgs -> same_affine (snd img) affine = true) ->
    concat_loop elt_eqb repr read_file affine n (pre ++ x :: rest) = Raise e.
Proof.
  intros Hx pre imgs n HF. revert n.
  induction HF as [|y img pre imgs (o & Hc & Hd & Ha) HF IH]; intros n Heq.
  - cbn [app concat_loop]. rewrite Hx. reflexivity.
  - cbn [app concat_loop]. rewrite Hc. cbn [bind]. rewrite Ha.
    cbn [call bind]. rewrite (Heq img (or_introl eq_refl)). cbn [negb].
    rewrite Hd. cbn [call bind].
    rewrite IH by (intros img' H'; apply Heq; right; exact H').
    reflexivity.
Qed.

(** X6: an element the checker refuses stops the concatenation with the
    error of the checker, whatever follows it, when the images before it
    have the affine of the first one. *)
Theorem concat_niimgs_unloadable
    (pre rest : list (value elt)) (x : value elt) (e : exn)
    (imgs : list (ndarray elt * ndarray elt)) :
  Forall2 loaded pre imgs ->
  (forall ref img, hd_error imgs = Some ref -> In img imgs ->
                   same_affine (snd img) (snd ref) = true) ->
  check x = Raise e ->
  concat (pre ++ x :: rest) = Raise e.
Proof.
  intros HF Heq Hx.
  destruct HF as [|y ref pre imgs Hy HF].
  - unfold concat_niimgs. cbn [app first_item bind]. rewrite Hx. reflexivity.
  - cbn [app].
    rewrite (concat_niimgs_loop elt_eqb repr (pre ++ x :: rest) Hy).
    change (y :: pre ++ x :: rest) with ((y :: pre) ++ x :: rest).
    rewrite (@concat_loop_unloadable (snd ref) x rest e Hx (y :: pre)
               (ref :: imgs) 0).
    + reflexivity.
    + constructor; assumption.
    + intros img Hin. apply (Heq ref img eq_refl Hin).
Qed.

(** Stacking a single array that was given its trailing axis gives that
    array. *)
Lemma concatenate_single (d : ndarray elt) :
  wf_ndarray d -> concatenate_last [newaxis d] = Ok (newaxis d).
Proof.
  intros Hwf.
  change [newaxis d] with (map (@newaxis elt) [d]).
  rewrite (@concatenate_newaxis_eq elt (shape d) d [])
    by (intros a [<-|[]]; reflexivity).
  unfold newaxis. f_equal. f_equal. cbn [map flat_map].
  unfold wf_ndarray in Hwf. rewrite <- Hwf.
  rewrite <- (flat_map_singletons (elems d)) at 2.
  apply flat_map_ext_in. intros r _.
  cbn [newaxis shape elems]. rewrite last_dim_app, app_nil_r.
  unfold row. rewrite Nat.mul_1_r. reflexivity.
Qed.

(** X7: for a 3D image, the promotion of [accept_3d] is the concatenation
    of the list that holds this image alone, which is also what the
    normalizer makes of that list. *)
Theorem check_niimgs_accept_3d_is_concat (o : pyobject elt)
    (d affine : ndarray elt) :
  get_data o = Method d -> get_affine o = Method affine ->
  consistent o -> ndim d = 3 -> wf_ndarray d ->
  same_affine affine affine = true ->
  normalize (VObj o) true = Ok (Nifti1Image (newaxis d) affine)
  /\ concat [VObj o] = Ok (Nifti1Image (newaxis d) affine)
  /\ normalize (VSeq [VObj o]) false = Ok (Nifti1Image (newaxis d) affine).
Proof.
  intros Hd Ha Hcons Hdim Hwf Heq.
  assert (Hn : is_a_niimg (VObj o) = true)
    by (rewrite is_a_niimg_spec, Hd, Ha; reflexivity).
  pose proof (check_niimg_obj read_file o Hn) as Hc.
  pose proof (Hcons d Hd) as Hs.
  assert (Hcat : concat [VObj o] = Ok (Nifti1Image (newaxis d) affine)).
  { assert (Hl : loaded (VObj o) (d, affine)).
    { exists o. repeat split; assumption. }
    rewrite (concat_niimgs_loop elt_eqb repr [] Hl). cbn [snd].
    rewrite (@concat_loop_ok elt elt_eqb repr read_file affine
               [VObj o] [(d, affine)] 0).
    - cbn [bind map]. unfold promoted. cbn [fst]. rewrite Hdim.
      cbn [Nat.eqb]. rewrite (concatenate_single Hwf). reflexivity.
    - constructor; [exact Hl|constructor].
    - intros img [<-|[]]. exact Heq. }
  split; [|split].
  - unfold check_niimgs. cbn [andb is_string is_iterable negb orb].
    rewrite Hc. cbn [bind]. rewrite Hs. cbn [bind].
    unfold ndim in Hdim. rewrite Hdim. cbn [Nat.eqb].
    rewrite Hd, Ha. reflexivity.
  - exact Hcat.
  - rewrite (@check_niimgs_list_3d elt elt_eqb repr read_file
               [VObj o] (VObj o) o (shape d)); try assumption; reflexivity.
Qed.

(** Without [accept_3d], what the normalizer returns for an input whose
    first leaf is consistent is an image over a 4D array, with that array's
    shape. *)
Lemma check_niimgs_result (x leaf : value elt) (depth : nat)
    (o1 o : pyobject elt) :
  descend x 0 = Ok (leaf, depth) -> check leaf = Ok o1 -> consistent o1 ->
  normalize x false = Ok o ->
  exists d, get_data o = Method d /\ ndim d = 4
            /\ _get_shape o = Ok (shape d).
Proof.
  intros Hd Hc Hcons H.
  destruct (is_a_niimg_methods o1 (check_niimg_ok _ _ Hc))
    as (d1 & a1 & Hd1 & Ha1).
  pose proof (Hcons d1 Hd1) as Hs1.
  unfold check_niimgs in H. cbn [andb] in H. rewrite Hd in H.
  cbn [bind fst snd] in H. rewrite Hc in H. cbn [bind] in H.
  rewrite Hs1 in H. cbn [bind] in H.
  destruct (length (shape d1) + depth =? 4) eqn:E; cbn [negb] in H;
    [|discriminate].
  apply Nat.eqb_eq in E.
  destruct (length (shape d1) =? 4) eqn:E4.
  - apply Nat.eqb_eq in E4. assert (depth = 0) by lia. subst depth.
    apply descend_zero in Hd. subst leaf. rewrite Hc in H. inversion H.
    subst o. exists d1. repeat split; assumption.
  - apply Nat.eqb_neq in E4.
    apply bind_ok in H. destruct H as (l & Hl & H).
    destruct (concat_niimgs_ok _ H)
      as (first & rest & o1' & d1' & affine & arrays & stacked
          & -> & Hc' & Hd1' & Hcat & ->).
    destruct x as [p|ox|l']; cbn [items descend] in Hl, Hd.
    + inversion Hd. subst. lia.
    + discriminate Hl.
    + inversion Hl. subst l'.
      destruct first as [p|o2|lf]; cbn [descend] in Hd;
        [| |discriminate Hc'];
        (inversion Hd; subst leaf depth;
         rewrite Hc in Hc'; inversion Hc'; subst o1';
         rewrite Hd1 in Hd1'; inversion Hd1'; subst d1';
         assert (H3 : length (shape d1) = 3) by lia;
         unfold promoted in Hcat; cbn [fst] in Hcat;
         unfold ndim in Hcat; rewrite H3 in Hcat; cbn [Nat.eqb] in Hcat;
         rewrite (@concatenate_last_head elt (newaxis d1 :: arrays)
                    (newaxis d1) eq_refl) in Hcat;
         destruct (existsb _ _); [discriminate Hcat|];
         destruct (forallb _ _); [|discriminate Hcat];
         inversion Hcat; subst stacked;
         eexists; split; [reflexivity|]; split; [|reflexivity];
         unfold ndim; cbn [shape newaxis];
         rewrite lead_shape_app, length_app, H3; reflexivity).
Qed.

(** X8: without [accept_3d], what the normalizer returns for an input
    whose first leaf is consistent is a 4D image. *)
Theorem check_niimgs_returns_4d (x leaf : value elt) (depth : nat)
    (o1 o : pyobject elt) :
  descend x 0 = Ok (leaf, depth) -> check leaf = Ok o1 -> consistent o1 ->
  normalize x false = Ok o ->
  exists d, get_data o = Method d /\ ndim d = 4
            /\ _get_shape o = Ok (shape d).
Proof.
  intros Hd Hc Hcons H.
  apply check_niimgs_result with (x := x) (leaf := leaf) (depth := depth)
                                 (o1 := o1); assumption.
Qed.

(** X9: the normalizer is idempotent on an input whose first leaf is
    consistent: it returns what it returned when applied to it again, with
    the same setting of [accept_3d]. *)
Theorem check_niimgs_idempotent (x leaf : value elt) (depth : nat)
    (o1 o : pyobject elt) (accept_3d : bool) :
  descend x 0 = Ok (leaf, depth) -> check leaf = Ok o1 -> consistent o1 ->
  normalize x accept_3d = Ok o ->
  normalize (VObj o) accept_3d = Ok o.
Proof.
  intros Hd Hc Hcons H.
  assert (Hfour : normalize x false = Ok o ->
                  normalize (VObj o) accept_3d = Ok o).
  { intros H'.
    destruct (check_niimgs_result x Hd Hc Hcons H') as (d & Hg & H4 & Hs).
    apply check_niimgs_leaf_4d with (s := shape d); try assumption.
    - intros l. discriminate.
    - apply check_niimg_obj.
      exact (check_niimgs_returns_niimg_aux x false H'). }
  destruct accept_3d; [|exact (Hfour H)].
  destruct x as [p|ox|l]; [| |exact (Hfour H)].
  all: cbn [descend] in Hd; inversion Hd; subst leaf depth;
    destruct (is_a_niimg_methods o1 (check_niimg_ok _ _ Hc))
      as (d1 & a1 & Hd1 & Ha1);
    pose proof (Hcons d1 Hd1) as Hs1;
    unfold check_niimgs in H;
    cbn [andb is_string is_iterable negb orb] in H;
    rewrite Hc in H; cbn [bind] in H; rewrite Hs1 in H; cbn [bind] in H;
    destruct (length (shape d1) =? 3) eqn:E3.
  all: try (rewrite Hd1, Ha1 in H; cbn [call bind] in H; inversion H;
            apply Nat.eqb_eq in E3;
            unfold check_niimgs;
            cbn [andb is_string is_iterable negb orb check_niimg];
            cbn [is_a_niimg Nifti1Image get_data get_affine callable andb
                 negb bind _get_shape shape_attr newaxis shape];
            rewrite length_app, E3; reflexivity).
  all: inversion H; subst o;
    unfold check_niimgs; cbn [andb is_string is_iterable negb orb];
    rewrite (check_niimg_obj read_file o1 (check_niimg_ok _ _ Hc));
    cbn [bind]; rewrite Hs1; cbn [bind]; rewrite E3; reflexivity.
Qed.

End NiimgMore.

(** ** More on connected components *)

(** [argmax_from] returns the first position of the maximum: what comes
    before it is strictly smaller. *)
Lemma argmax_from_first (l : list nat) :
  forall (pre : list nat) (best_i : nat),
    best_i < length pre ->
    (forall j, j < best_i -> nth j pre 0 < nth best_i pre 0) ->
    (forall j, j < length pre -> nth j pre 0 <= nth best_i pre 0) ->
    forall j, j < argmax_from best_i (nth best_i pre 0) (length pre) l ->
              nth j (pre ++ l) 0
              < nth (argmax_from best_i (nth best_i pre 0) (length pre) l)
                    (pre ++ l) 0.
Proof.
  induction l as [|x l IH]; intros pre best_i Hb Hlt Hle j Hj.
  - cbn [argmax_from] in *. rewrite app_nil_r. apply Hlt. exact Hj.
  - cbn [argmax_from] in *.
    replace (pre ++ x :: l) with ((pre ++ [x]) ++ l)
      by (rewrite <- app_assoc; reflexivity).
    assert (Hx : nth (length pre) (pre ++ [x]) 0 = x).
    { rewrite app_nth2 by lia. rewrite Nat.sub_diag. reflexivity. }
    assert (Hlen : length (pre ++ [x]) = S (length pre)).
    { rewrite length_app. simpl. lia. }
    destruct (nth best_i pre 0 <? x) eqn:E.
    + apply Nat.ltb_lt in E.
      pose proof (@IH (pre ++ [x]) (length pre)) as IH'.
      rewrite Hx, Hlen in IH'. apply IH'; try assumption.
      * lia.
      * intros i Hi. rewrite app_nth1 by lia.
        specialize (Hle i Hi). lia.
      * intros i Hi.
        destruct (Nat.eq_dec i (length pre)) as [->|Hne].
        -- rewrite Hx. lia.
        -- rewrite app_nth1 by lia.
           assert (Hi' : i < length pre) by lia.
           specialize (Hle i Hi'). lia.
    + apply Nat.ltb_ge in E.
      assert (Hbest : nth best_i (pre ++ [x]) 0 = nth best_i pre 0)
        by (apply app_nth1; exact Hb).
      pose proof (IH (pre ++ [x]) best_i) as IH'.
      rewrite Hbest, Hlen in IH'. apply IH'; try assumption.
      * lia.
      * intros i Hi. rewrite app_nth1 by lia. apply Hlt. exact Hi.
      * intros i Hi.
        destruct (Nat.eq_dec i (length pre)) as [->|Hne].
        -- rewrite Hx. exact E.
        -- rewrite app_nth1 by lia. apply Hle. lia.
Qed.

Lemma argmax_first (l : list nat) (k : nat) :
  argmax l = Ok k -> forall j, j < k -> nth j l 0 < nth k l 0.
Proof.
  destruct l as [|x l]; [discriminate|]. cbn [argmax].
  intros H j Hj. inversion H as [Hk]. clear H. subst k.
  pose proof (@argmax_from_first l [x] 0) as H0.
  cbn [length nth app] in H0. apply H0.
  - lia.
  - intros i Hi. lia.
  - intros i Hi. assert (i = 0) by lia. subst i. lia.
  - exact Hj.
Qed.

Section ComponentMore.

Variable label : ndarray bool -> ndarray nat * nat.
Variable adj : nat -> nat -> Prop.
Variable A : Type.
Variable nonzero : A -> bool.

(** X10: with two labels or more, the mask returned is the set of
    positions of one label, the one that occurs most often and, among
    those, the smallest. *)
Theorem largest_connected_component_first (volume : ndarray A) :
  let fg := map_nd nonzero volume in
  let labels := fst (label fg) in
  let occurrences := count_occ Nat.eq_dec (elems labels) in
  label_spec adj fg labels (snd (label fg)) ->
  2 <= snd (label fg) ->
  exists k,
    largest_connected_component label nonzero volume
    = Ok (map_nd (fun v => v =? k) labels)
    /\ 1 <= k
    /\ (forall v, 1 <= v -> occurrences v <= occurrences k)
    /\ (forall v, 1 <= v -> v < k -> occurrences v < occurrences k).
Proof.
  intros fg labels occurrences HL Hnb. subst labels occurrences.
  unfold largest_connected_component. fold fg.
  destruct (label fg) as [labels nb] eqn:El. cbn [fst snd] in *.
  pose proof HL as [Hsh Hlen Hbg Hbd Hused Hcomp].
  set (L := elems labels) in *.
  destruct (Hused 1) as (p1 & Hp1 & Hv1); [lia|]. fold L in Hv1.
  assert (Hin1 : In 1 L).
  { rewrite <- Hv1. apply nth_In. rewrite Hlen. exact Hp1. }
  destruct (nb =? 0) eqn:E0; [apply Nat.eqb_eq in E0; lia|].
  destruct (nb =? 1) eqn:E1; [apply Nat.eqb_eq in E1; lia|].
  assert (Hbc : length (bincount L) = S (list_max L)).
  { unfold bincount. destruct L as [|x l']; [destruct Hin1|].
    rewrite length_map, length_seq. reflexivity. }
  destruct (bincount L) as [|c0 cs] eqn:Ebc; [discriminate|].
  cbn [discard_zero bind].
  destruct (argmax (0 :: cs)) as [k|e] eqn:Ek; [|discriminate].
  cbn [bind].
  destruct (argmax_spec _ Ek) as [Hk Hmaxk].
  pose proof (argmax_first _ Ek) as Hfirst.
  assert (Hcs : forall v, 1 <= v -> v < length (0 :: cs) ->
                          nth v (0 :: cs) 0 = count_occ Nat.eq_dec L v).
  { intros v Hv Hlt. rewrite <- (@bincount_nth_any L v), Ebc.
    - destruct v; [lia|reflexivity].
    - rewrite Ebc. exact Hlt. }
  assert (Hlarge : forall v, In v L -> v < length (0 :: cs)).
  { intros v Hv. pose proof (list_max_ge L v Hv) as Hle.
    change (length (0 :: cs)) with (length (c0 :: cs)). rewrite Hbc. lia. }
  assert (Hone : 1 <= nth k (0 :: cs) 0).
  { transitivity (nth 1 (0 :: cs) 0); [|apply Hmaxk].
    rewrite Hcs by (lia || apply Hlarge; exact Hin1).
    apply (count_occ_In Nat.eq_dec) in Hin1. lia. }
  assert (Hk1 : 1 <= k) by (destruct k; [simpl in Hone; lia|lia]).
  exists k. split; [reflexivity|]. split; [exact Hk1|]. split.
  - intros v Hv.
    destruct (count_occ Nat.eq_dec L v) eqn:Ec; [lia|].
    assert (Hinv : In v L) by (apply (count_occ_In Nat.eq_dec); lia).
    rewrite <- Ec, <- (Hcs v Hv (Hlarge v Hinv)), <- (Hcs k Hk1 Hk).
    apply Hmaxk.
  - intros v Hv Hvk.
    rewrite <- (Hcs v Hv) by lia. rewrite <- (Hcs k Hk1 Hk).
    apply Hfirst. exact Hvk.
Qed.

(** X11: on a volume whose foreground is not empty and connected, the
    function returns the foreground itself. *)
Theorem largest_connected_component_connected (volume : ndarray A) :
  let fg := map_nd nonzero volume in
  label_spec adj fg (fst (label fg)) (snd (label fg)) ->
  count_true (elems fg) <> 0 ->
  (forall p q, fg_at (elems fg) p -> fg_at (elems fg) q ->
               connected adj (elems fg) p q) ->
  largest_connected_component label nonzero volume = Ok fg.
Proof.
  intros fg HL Hpos Hconn.
  unfold largest_connected_component. fold fg.
  destruct (label fg) as [labels nb] eqn:El. cbn [fst snd] in *.
  destruct HL as [Hsh Hlen Hbg Hbd Hused Hcomp].
  set (L := elems labels) in *.
  assert (Hfg : forall p, p < length (elems fg) -> nth p L 0 <> 0 ->
                          fg_at (elems fg) p).
  { intros p Hp Hne. unfold fg_at.
    destruct (nth p (elems fg) false) eqn:E; [reflexivity|].
    exfalso. apply Hne. apply Hbg; assumption. }
  destruct nb as [|[|nb]].
  - exfalso. destruct (count_true_pos _ Hpos) as (p & Hp & F).
    pose proof (Hbd p) as Hle. fold L in Hle.
    assert (E : nth p L 0 = 0) by lia.
    apply Hbg in E; [congruence|exact Hp].
  - reflexivity.
  - exfalso.
    destruct (Hused 1) as (p & Hp & Hvp); [lia|].
    destruct (Hused 2) as (q & Hq & Hvq); [lia|].
    fold L in Hvp, Hvq.
    assert (Fp : fg_at (elems fg) p) by (apply Hfg; [exact Hp|lia]).
    assert (Fq : fg_at (elems fg) q) by (apply Hfg; [exact Hq|lia]).
    pose proof (Hconn p q Fp Fq) as Hc.
    apply Hcomp in Hc; try assumption. fold L in Hc. lia.
Qed.

End ComponentMore.

(** *** On sample inputs *)

Lemma consistent_image (data affine : ndarray Z) :
  consistent (Nifti1Image data affine).
Proof.
  intros d H. inversion H. reflexivity.
Defined.

Lemma check_niimgs_returns_niimg_witness :
  is_a_niimg
    (VObj (Nifti1Image (mk_ndarray [1; 1; 2; 2] [1; 3; 2; 4]%Z)
             Sample.identity)) = true.
Proof.
  apply (@check_niimgs_returns_niimg Z Z.eqb Sample.repr Sample.read_file
           (VSeq [Sample.img_3d_a; Sample.img_3d_b]) false).
  reflexivity.
Defined.

Lemma check_niimgs_4d_unchanged_witness :
  Sample.normalize (VObj Sample.obj_4d) false = Ok Sample.obj_4d.
Proof.
  apply (@check_niimgs_4d_unchanged Z Z.eqb Sample.repr Sample.read_file
           (VObj Sample.obj_4d) Sample.obj_4d [1; 1; 2; 2] false).
  - intros l. discriminate.
  - reflexivity.
  - reflexivity.
  - reflexivity.
Defined.

Lemma check_niimgs_accept_3d_monotone_witness :
  Sample.normalize (VSeq [Sample.img_3d_a; Sample.img_3d_b]) true
  = Ok (Nifti1Image (mk_ndarray [1; 1; 2; 2] [1; 3; 2; 4]%Z)
          Sample.identity).
Proof.
  apply (@check_niimgs_accept_3d_monotone Z Z.eqb Sample.repr
           Sample.read_file (VSeq [Sample.img_3d_a; Sample.img_3d_b])).
  reflexivity.
Defined.

Lemma check_niimgs_hollow_witness :
  Sample.normalize (VSeq [VSeq []; Sample.img_3d_a]) true
  = Raise StopIteration.
Proof.
  apply (@check_niimgs_hollow Z Z.eqb Sample.repr Sample.read_file
           (VSeq [VSeq []; Sample.img_3d_a]) true).
  reflexivity.
Defined.

Lemma concat_niimgs_volumes_witness :
  exists stacked,
    Sample.concat [Sample.img_3d_a; VObj Sample.obj_4d]
    = Ok (Nifti1Image stacked Sample.identity)
    /\ shape stacked = [1; 1; 2; 3].
Proof.
  apply (@concat_niimgs_volumes Z Z.eqb Sample.repr Sample.read_file
           [Sample.img_3d_a; VObj Sample.obj_4d]
           (mk_ndarray [1; 1; 2] [1; 2]%Z, Sample.identity)
           [(mk_ndarray [1; 1; 2; 2] [1; 2; 3; 4]%Z, Sample.identity)]
           [1; 1; 2]).
  - repeat constructor; apply loads_image.
  - intros img [<-|[<-|[]]]; repeat split; (reflexivity || (left; reflexivity)
                                           || (right; reflexivity)).
Defined.

Lemma concat_niimgs_unloadable_witness :
  Sample.concat [Sample.img_3d_a; VStr "missing.nii"; Sample.img_3d_flipped]
  = Raise (IOError "missing.nii").
Proof.
  apply (@concat_niimgs_unloadable Z Z.eqb Sample.repr Sample.read_file
           [Sample.img_3d_a] [Sample.img_3d_flipped] (VStr "missing.nii")
           (IOError "missing.nii")
           [(mk_ndarray [1; 1; 2] [1; 2]%Z, Sample.identity)]).
  - repeat constructor; apply loads_image.
  - intros ref img Href [<-|[]]. inversion Href. reflexivity.
  - reflexivity.
Defined.

Lemma check_niimgs_accept_3d_is_concat_witness :
  Sample.normalize (VObj Sample.obj_3d) true
  = Ok (Nifti1Image (mk_ndarray [1; 1; 2; 1] [1; 2]%Z) Sample.identity)
  /\ Sample.concat [VObj Sample.obj_3d]
     = Ok (Nifti1Image (mk_ndarray [1; 1; 2; 1] [1; 2]%Z) Sample.identity)
  /\ Sample.normalize (VSeq [VObj Sample.obj_3d]) false
     = Ok (Nifti1Image (mk_ndarray [1; 1; 2; 1] [1; 2]%Z) Sample.identity).
Proof.
  apply (@check_niimgs_accept_3d_is_concat Z Z.eqb Sample.repr
           Sample.read_file Sample.obj_3d
           (mk_ndarray [1; 1; 2] [1; 2]%Z) Sample.identity);
    try reflexivity.
  apply consistent_image.
Defined.

Lemma check_niimgs_returns_4d_witness :
  exists d,
    get_data (Nifti1Image (mk_ndarray [1; 1; 2; 2] [1; 3; 2; 4]%Z)
                Sample.identity) = Method d
    /\ ndim d = 4
    /\ _get_shape (Nifti1Image (mk_ndarray [1; 1; 2; 2] [1; 3; 2; 4]%Z)
                     Sample.identity) = Ok (shape d).
Proof.
  apply (@check_niimgs_returns_4d Z Z.eqb Sample.repr Sample.read_file
           (VSeq [Sample.img_3d_a; Sample.img_3d_b]) Sample.img_3d_a 1
           Sample.obj_3d).
  - reflexivity.
  - reflexivity.
  - apply consistent_image.
  - reflexivity.
Defined.

Lemma check_niimgs_idempotent_witness :
  Sample.normalize
    (VObj (Nifti1Image (mk_ndarray [1; 1; 2; 2] [1; 3; 2; 4]%Z)
             Sample.identity)) false
  = Ok (Nifti1Image (mk_ndarray [1; 1; 2; 2] [1; 3; 2; 4]%Z)
          Sample.identity).
Proof.
  apply (@check_niimgs_idempotent Z Z.eqb Sample.repr Sample.read_file
           (VSeq [Sample.img_3d_a; Sample.img_3d_b]) Sample.img_3d_a 1
           Sample.obj_3d).
  - reflexivity.
  - reflexivity.
  - apply consistent_image.
  - reflexivity.
Defined.

Lemma largest_connected_component_first_witness :
  exists k,
    largest_connected_component Sample.label Sample.nonzero Sample.volume
    = Ok (map_nd (fun v => v =? k)
            (fst (Sample.label (map_nd Sample.nonzero Sample.volume))))
    /\ 1 <= k
    /\ (forall v, 1 <= v ->
          count_occ Nat.eq_dec [1; 0; 2; 2] v
          <= count_occ Nat.eq_dec [1; 0; 2; 2] k)
    /\ (forall v, 1 <= v -> v < k ->
          count_occ Nat.eq_dec [1; 0; 2; 2] v
          < count_occ Nat.eq_dec [1; 0; 2; 2] k).
Proof.
  apply (@largest_connected_component_first Sample.label
           (face_adjacent [1; 1; 4]) Z Sample.nonzero Sample.volume
           sample_label_spec).
  simpl. lia.
Defined.

Lemma voxel_label_spec :
  label_spec (face_adjacent [1; 1; 1])
    (map_nd Sample.nonzero Sample.voxel)
    (fst (Sample.label_voxel (map_nd Sample.nonzero Sample.voxel)))
    (snd (Sample.label_voxel (map_nd Sample.nonzero Sample.voxel))).
Proof.
  change (map_nd Sample.nonzero Sample.voxel)
    with (mk_ndarray [1; 1; 1] [true]).
  constructor; cbn [fst snd Sample.label_voxel elems shape].
  - reflexivity.
  - reflexivity.
  - intros p Hp. destruct p as [|p]; [|simpl in Hp; lia].
    simpl. split; intros; discriminate.
  - intros p. destruct p as [|[|p]]; simpl; lia.
  - intros k Hk. exists 0. simpl. split; lia.
  - intros p q Hp Hq Fp Fq. simpl in Hp, Hq.
    assert (p = 0) by lia. assert (q = 0) by lia. subst p q.
    split; [intros _; apply connected_refl; reflexivity|reflexivity].
Qed.

Lemma largest_connected_component_connected_witness :
  largest_connected_component Sample.label_voxel Sample.nonzero Sample.voxel
  = Ok (map_nd Sample.nonzero Sample.voxel).
Proof.
  apply (@largest_connected_component_connected Sample.label_voxel
           (face_adjacent [1; 1; 1]) Z Sample.nonzero Sample.voxel
           voxel_label_spec).
  - discriminate.
  - intros p q Fp Fq.
    assert (Hp : p = 0).
    { destruct p as [|[|p]]; [reflexivity|discriminate Fp|discriminate Fp]. }
    assert (Hq : q = 0).
    { destruct q as [|[|q]]; [reflexivity|discriminate Fq|discriminate Fq]. }
    subst p q. apply connected_refl. reflexivity.
Defined.
